(** * Land-use / land-cover classification script: a shallow embedding

    The script [lulc_classification_gee.js] is a client program of the
    Earth Engine API.  Every [ee.*] object it handles is a deferred
    server-side computation that either evaluates to a value or to an
    error; only [getInfo()] forces a value on the client.  The embedding
    follows that reading:

    - a deferred object of type [T] is a [result T];
    - the functions of the script ([stableGeom], [maskS2], [addIndices],
      [getComposite], [autoSamples], [trainRF] and the execution loop) are
      translated line by line;
    - the API primitives they call are written out after the API reference
      where their behaviour is documented and deterministic (band algebra,
      masks, reducers, remap, sampling counts) and are left to an
      [Engine] interface, with the documented contract, where they are
      not (asset look-up, geometry simplification, the seeded random
      choice of the sampler, the seeded growth of the random forest). *)

From Stdlib Require Import List String ZArith QArith Bool Lia Lqa Permutation.
Import ListNotations.

Local Open Scope string_scope.
Local Open Scope list_scope.

(** ** Deferred computations *)

Inductive error : Type :=
| AssetNotFound (id : string)
| BandNotFound (band : string)
| PropertyNotFound (prop : string)
| HeterogeneousCollection
| BadArguments (what : string)
| GeometryTooComplex
| NoTrainingData.

Inductive result (A : Type) : Type :=
| Ok (a : A)
| Err (e : error).

Arguments Ok {A} a.
Arguments Err {A} e.

Definition bind {A B : Type} (c : result A) (k : A -> result B) : result B :=
  match c with
  | Ok a => k a
  | Err e => Err e
  end.

Notation "x <- c ;; k" := (bind c (fun x => k))
  (at level 61, c at next level, right associativity).

Fixpoint mapM {A B : Type} (f : A -> result B) (l : list A) : result (list B) :=
  match l with
  | [] => Ok []
  | x :: t => y <- f x ;; ys <- mapM f t ;; Ok (y :: ys)
  end.

(** ** Rasters, images, collections *)

(** A cell of the 10 m working grid. *)
Definition Pixel : Type := (Z * Z)%type.

Definition pixel_eqb (p q : Pixel) : bool :=
  (fst p =? fst q)%Z && (snd p =? snd q)%Z.

(** A geometry is known by the grid cells it covers. *)
Definition Geometry : Type := list Pixel.

Definition contains (g : Geometry) (p : Pixel) : bool :=
  existsb (pixel_eqb p) g.

Definition intersects (g h : Geometry) : bool :=
  existsb (contains g) h.

(** One band: a value per cell, [None] where the cell is masked. *)
Definition Raster : Type := Pixel -> option Q.

(** Calendar date, compared lexicographically. *)
Record Date : Type := mkDate { year : Z; month : Z; day : Z }.

Definition date_ltb (a b : Date) : bool :=
  ((year a <? year b) ||
   ((year a =? year b) &&
    ((month a <? month b) || ((month a =? month b) && (day a <? day b)))))%Z.

Definition date_leb (a b : Date) : bool := negb (date_ltb b a).

(** An image: named bands in order, plus the two pieces of metadata the
    script filters on.  [None] stands for "no acquisition time" and for
    an unbounded footprint, as composites and global rasters have. *)
Record Image : Type := mkImage {
  bands : list (string * Raster);
  acquired : option Date;
  footprint : option Geometry
}.

Definition ImageCollection : Type := list Image.

Definition bandNames (img : Image) : list string := map fst (bands img).

Fixpoint lookup {V : Type} (k : string) (l : list (string * V)) : option V :=
  match l with
  | [] => None
  | (k', v) :: t => if String.eqb k k' then Some v else lookup k t
  end.

Definition withBands (img : Image) (bs : list (string * Raster)) : Image :=
  {| bands := bs; acquired := acquired img; footprint := footprint img |}.

(** [image.select(names)]: the named bands, in the order asked for; a name
    that matches no band is an error. *)
Definition selectBand (img : Image) (name : string) : result (string * Raster) :=
  match lookup name (bands img) with
  | Some r => Ok (name, r)
  | None => Err (BandNotFound name)
  end.

Definition select (names : list string) (img : Image) : result Image :=
  bs <- mapM (selectBand img) names ;; Ok (withBands img bs).

(** [image.rename(names)]: positional renaming. *)
Definition rename (names : list string) (img : Image) : result Image :=
  if Nat.eqb (List.length names) (List.length (bands img))
  then Ok (withBands img (combine names (map snd (bands img))))
  else Err (BadArguments "rename").

(** *** Per-pixel algebra *)

Definition nonzero (v : Q) : bool := negb (Qeq_bool v 0).

Definition ofBool (b : bool) : Q := if b then 1 else 0.

Definition r_eq (c : Q) (r : Raster) : Raster :=
  fun p => option_map (fun v => ofBool (Qeq_bool v c)) (r p).

Definition r_or (a b : Raster) : Raster :=
  fun p =>
    match a p, b p with
    | Some x, Some y => Some (ofBool (nonzero x || nonzero y))
    | _, _ => None
    end.

Definition r_not (r : Raster) : Raster :=
  fun p => option_map (fun v => ofBool (negb (nonzero v))) (r p).

(** [updateMask]: a cell stays valid only where it was valid and the mask
    is valid and non-zero. *)
Definition r_updateMask (r m : Raster) : Raster :=
  fun p =>
    match r p, m p with
    | Some v, Some k => if nonzero k then Some v else None
    | _, _ => None
    end.

Definition mapBands (f : Raster -> Raster) (img : Image) : Image :=
  withBands img (map (fun b => (fst b, f (snd b))) (bands img)).

(** Binary band matching: a one-band operand is used against every band
    of the other one; otherwise bands are paired in their natural
    order.  Names come from the left operand. *)
Definition zipBands (f : Raster -> Raster -> Raster) (a b : Image) : Image :=
  match bands b with
  | [(_, rb)] => mapBands (fun ra => f ra rb) a
  | bbs =>
      withBands a
        (map (fun ab => (fst (fst ab), f (snd (fst ab)) (snd (snd ab))))
             (combine (bands a) bbs))
  end.

Definition img_eq (c : Q) (img : Image) : Image := mapBands (r_eq c) img.
Definition img_or (a b : Image) : Image := zipBands r_or a b.
Definition img_not (img : Image) : Image := mapBands r_not img.
Definition updateMask (img mask : Image) : Image := zipBands r_updateMask img mask.

(** ** PARAMETERS *)

Definition ASSET_FC : string := "projects/sete-cidades/assets/sete_cidades".
Definition NAME_FIELD : string := "NM_MUN".
Definition DATE_START : Date := mkDate 2025 7 10.
Definition DATE_END : Date := mkDate 2025 7 30.
Definition S2 : string := "COPERNICUS/S2_SR_HARMONIZED".
Definition BANDS10 : list string :=
  ["B2"; "B3"; "B4"; "B5"; "B6"; "B7"; "B8"; "B8A"; "B11"; "B12"].
Definition CLASS_PALETTE : list string :=
  ["#3b83bd"; "#8c8c8c"; "#c8a165"; "#2ca25f"; "#a1d99b"].
Definition APPLY_CLOUD_MASK : bool := true.

(** ** HELPER FUNCTIONS *)

(** Cloud masking using the Scene Classification Layer. *)
Definition maskS2 (image : Image) : result Image :=
  scl <- select ["SCL"] image ;;
  let cloud :=
    img_or (img_or (img_or (img_eq 8 scl) (img_eq 9 scl)) (img_eq 10 scl))
           (img_eq 11 scl) in
  let shadow := img_eq 3 scl in
  let sat := img_eq 1 scl in
  let mask := img_not (img_or (img_or cloud shadow) sat) in
  Ok (updateMask image mask).

(** ** More API primitives *)

(** [collection.filterDate(start, end)]: start inclusive, end exclusive. *)
Definition filterDate (a b : Date) (col : ImageCollection) : ImageCollection :=
  filter (fun img =>
            match acquired img with
            | Some d => date_leb a d && date_ltb d b
            | None => false
            end) col.

(** [collection.filterBounds(geom)]: images whose footprint meets [geom]. *)
Definition filterBounds (geom : Geometry) (col : ImageCollection) : ImageCollection :=
  filter (fun img =>
            match footprint img with
            | Some h => intersects geom h
            | None => true
            end) col.

Definition size {A : Type} (col : list A) : Z := Z.of_nat (List.length col).

(** [ee.Algorithms.If(condition, trueCase, falseCase)]. *)
Definition If {A : Type} (condition : bool) (trueCase falseCase : A) : A :=
  if condition then trueCase else falseCase.

(** *** The median reducer *)

Fixpoint insert (x : Q) (l : list Q) : list Q :=
  match l with
  | [] => [x]
  | y :: t => if Qle_bool x y then x :: l else y :: insert x t
  end.

Definition sort (l : list Q) : list Q := fold_right insert [] l.

(** Median of the valid observations: the middle one, or the mean of the
    two middle ones; no observation gives a masked cell. *)
Definition medianOf (l : list Q) : option Q :=
  match l with
  | [] => None
  | _ :: _ =>
      let s := sort l in
      let n := List.length s in
      if Nat.even n
      then Some ((nth (n / 2 - 1) s 0 + nth (n / 2) s 0) / 2)
      else Some (nth (n / 2) s 0)
  end.

(** The unmasked values band [name] takes at cell [p] across a collection. *)
Definition observations (name : string) (p : Pixel) (col : ImageCollection) : list Q :=
  flat_map (fun img =>
              match lookup name (bands img) with
              | Some r => match r p with Some v => [v] | None => [] end
              | None => []
              end) col.

Fixpoint names_eqb (a b : list string) : bool :=
  match a, b with
  | [], [] => true
  | x :: a', y :: b' => String.eqb x y && names_eqb a' b'
  | _, _ => false
  end.

(** [collection.median()]: band by band, cell by cell, over the images of
    the collection; an empty collection gives an image without bands. *)
Definition median (col : ImageCollection) : result Image :=
  match col with
  | [] => Ok (mkImage [] None None)
  | first :: _ =>
      if forallb (fun img => names_eqb (bandNames img) (bandNames first)) col
      then Ok (mkImage
                 (map (fun n => (n, fun p => medianOf (observations n p col)))
                      (bandNames first))
                 None None)
      else Err HeterogeneousCollection
  end.

(** [image.clip(geom)]: cells outside the geometry are masked. *)
Definition clip (geom : Geometry) (img : Image) : Image :=
  {| bands := map (fun b => (fst b,
                             fun p => if contains geom p then snd b p else None))
                  (bands img);
     acquired := acquired img;
     footprint := Some geom |}.

(** [image.normalizedDifference([a, b])]: (a - b) / (a + b) in one band
    named nd; a cell is masked where either input is masked or negative;
    a zero denominator gives 0. *)
Definition nd (a b : Raster) : Raster :=
  fun p =>
    match a p, b p with
    | Some x, Some y =>
        if negb (Qle_bool 0 x) || negb (Qle_bool 0 y) then None
        else Some ((x - y) / (x + y))
    | _, _ => None
    end.

Definition normalizedDifference (names : list string) (img : Image) : result Image :=
  match names with
  | [a; b] =>
      ra <- selectBand img a ;;
      rb <- selectBand img b ;;
      Ok (mkImage [("nd", nd (snd ra) (snd rb))] None (footprint img))
  | _ => Err (BadArguments "normalizedDifference")
  end.

Definition hasBand (n : string) (bs : list (string * Raster)) : bool :=
  existsb (fun b => String.eqb n (fst b)) bs.

(** [image.addBands(src)] without overwrite: the bands of [src] are
    appended; a name already taken gets the suffix _1. *)
Definition addBand (acc : list (string * Raster)) (b : string * Raster)
  : list (string * Raster) :=
  acc ++ [(if hasBand (fst b) acc then String.append (fst b) "_1" else fst b, snd b)].

Definition addBands (img : Image) (srcs : list Image) : Image :=
  withBands img (fold_left addBand (flat_map bands srcs) (bands img)).

(** [image.remap(from, to)] on the first band, no default value: a value
    that matches no entry of [from] is masked. *)
Fixpoint remapValue (from to : list Q) (v : Q) : option Q :=
  match from, to with
  | f :: fs, t :: ts => if Qeq_bool v f then Some t else remapValue fs ts v
  | _, _ => None
  end.

Definition remap (from to : list Q) (img : Image) : result Image :=
  if Nat.eqb (List.length from) (List.length to)
  then match bands img with
       | (_, r) :: _ =>
           Ok (withBands img
                 [("remapped",
                   fun p => match r p with
                            | Some v => remapValue from to v
                            | None => None
                            end)])
       | [] => Err (BadArguments "remap")
       end
  else Err (BadArguments "remap").

(** *** Features *)

Inductive value : Type :=
| VStr (s : string)
| VNum (q : Q).

Record Feature : Type := mkFeature {
  geometry : Geometry;
  properties : list (string * value)
}.

Definition FeatureCollection : Type := list Feature.

Definition numProp (name : string) (ft : Feature) : option Q :=
  match lookup name (properties ft) with
  | Some (VNum q) => Some q
  | _ => None
  end.

Fixpoint mapO {A B : Type} (f : A -> option B) (l : list A) : option (list B) :=
  match l with
  | [] => Some []
  | x :: t =>
      match f x, mapO f t with
      | Some y, Some ys => Some (y :: ys)
      | _, _ => None
      end
  end.

(** The values of every band at one cell, or nothing when a band is
    masked there (samplers drop such cells). *)
Definition pixelProps (img : Image) (p : Pixel) : option (list (string * value)) :=
  mapO (fun b => option_map (fun v => (fst b, VNum v)) (snd b p)) (bands img).

Fixpoint distinct (l : list Q) : list Q :=
  match l with
  | [] => []
  | x :: t => x :: filter (fun y => negb (Qeq_bool y x)) (distinct t)
  end.

Definition isSome {A : Type} (o : option A) : bool :=
  match o with Some _ => true | None => false end.

(** A trained classifier: the input properties it reads, in order, and
    its decision function. *)
Record Classifier : Type := mkClassifier {
  schema : list string;
  decide : list Q -> Q
}.

Definition TrainingTable : Type := list (list Q * Q).

(** ** The engine

    What the script obtains from the server and cannot be written out:
    the assets behind an id, the geometry operations, and the two seeded
    pseudo-random procedures. *)
Class Engine : Type := {
  loadCollection : string -> result ImageCollection;
  loadImage : string -> result Image;
  dissolve : Geometry -> result Geometry;
  simplify : Q -> Geometry -> result Geometry;
  shuffle : Z -> list Pixel -> list Pixel;
  growForest : nat -> Z -> TrainingTable -> result (list Q -> Q)
}.

(** The contracts of the two seeded procedures, after the API reference.
    The sampler draws without replacement: for a given seed it rearranges
    the candidate cells, and a prefix of the rearrangement is kept. *)
Class FairSampler (engine : Engine) : Prop :=
  shuffle_perm : forall s l, Permutation (shuffle s l) l.

(** A forest in classification mode answers with the label of one of the
    rows it was grown from; in particular none can be grown from an empty
    table (the trainer reports that it found no valid training data). *)
Class VotingForest (engine : Engine) : Prop :=
  growForest_votes :
    forall n s rows f, growForest n s rows = Ok f ->
                       forall x, In (f x) (map snd rows).

Section Script.

Context {engine : Engine}.

(** Cells of one stratum, values present, and the feature made of a cell. *)
Definition classAt (r : Raster) (c : Q) (p : Pixel) : bool :=
  match r p with Some v => Qeq_bool v c | None => false end.

Definition valuesOf (r : Raster) (cells : list Pixel) : list Q :=
  flat_map (fun p => match r p with Some v => [v] | None => [] end) cells.

Definition pointFeature (img : Image) (geometries : bool) (p : Pixel) : list Feature :=
  match pixelProps img p with
  | Some vals => [mkFeature (if geometries then [p] else []) vals]
  | None => []
  end.

(** [image.stratifiedSample({numPoints, classBand, region, scale,
    geometries, seed})]: for each distinct value found in the class band
    inside the region, [numPoints] cells of that value drawn at random,
    or all of them when there are fewer; one feature per cell with one
    property per band.  [numPoints] is the quota of each class. *)
Definition stratifiedSample (img : Image) (numPoints : nat) (classBand : string)
    (region : Geometry) (scale : Q) (geometries : bool) (seed : Z)
  : result FeatureCollection :=
  cb <- selectBand img classBand ;;
  let r := snd cb in
  let usable := filter (fun p => isSome (pixelProps img p)) region in
  let classes := distinct (valuesOf r usable) in
  Ok (flat_map
        (fun c =>
           flat_map (pointFeature img geometries)
                    (firstn numPoints (shuffle seed (filter (classAt r c) usable))))
        classes).

(** [image.sampleRegions({collection, properties, scale})]: one row per
    cell of each feature, holding the band values there and the listed
    properties of the feature; cells with a masked band are dropped. *)
Definition copyProps (props : list string) (ft : Feature) : list (string * value) :=
  flat_map (fun n => match lookup n (properties ft) with
                     | Some v => [(n, v)]
                     | None => []
                     end) props.

Definition sampleRegions (img : Image) (collection : FeatureCollection)
    (props : list string) (scale : Q) : FeatureCollection :=
  flat_map
    (fun ft =>
       flat_map (fun p => match pixelProps img p with
                          | Some vals => [mkFeature [] (vals ++ copyProps props ft)]
                          | None => []
                          end)
                (geometry ft))
    collection.

(** [ee.Classifier.smileRandomForest({numberOfTrees, seed})]. *)
Record RandomForest : Type := smileRandomForest {
  numberOfTrees : nat;
  rfSeed : Z
}.

Definition trainingRow (classProperty : string) (inputProperties : list string)
    (ft : Feature) : list (list Q * Q) :=
  match mapO (fun n => numProp n ft) inputProperties, numProp classProperty ft with
  | Some xs, Some y => [(xs, y)]
  | _, _ => []
  end.

(** [classifier.train({features, classProperty, inputProperties})]. *)
Definition train (rf : RandomForest) (features : FeatureCollection)
    (classProperty : string) (inputProperties : list string) : result Classifier :=
  let rows := flat_map (trainingRow classProperty inputProperties) features in
  f <- growForest (numberOfTrees rf) (rfSeed rf) rows ;;
  Ok (mkClassifier inputProperties f).

(** [image.classify(classifier)]: the classifier reads its input
    properties from the bands of that name; the result is one band named
    classification, masked where an input is. *)
Definition featureVector (names : list string) (img : Image) (p : Pixel)
  : option (list Q) :=
  mapO (fun n => match lookup n (bands img) with
                 | Some r => r p
                 | None => None
                 end) names.

Definition classify (clf : Classifier) (img : Image) : result Image :=
  _ <- select (schema clf) img ;;
  Ok (withBands img
        [("classification",
          fun p => option_map (decide clf) (featureVector (schema clf) img p))]).

(** ** HELPER FUNCTIONS (continued) *)

(** Simplify input geometry: dissolve and simplify. *)
Definition stableGeom (feat : Feature) : result Geometry :=
  let g := geometry feat in
  g <- dissolve g ;;
  g <- simplify 50 g ;;
  Ok g.

(** Add spectral indices to composite: NDVI, NDWI, NDBI. *)
Definition addIndices (img : Image) : result Image :=
  ndvi <- (d <- normalizedDifference ["B8"; "B4"] img ;; rename ["NDVI"] d) ;;
  ndwi <- (d <- normalizedDifference ["B3"; "B8"] img ;; rename ["NDWI"] d) ;;
  ndbi <- (d <- normalizedDifference ["B11"; "B8"] img ;; rename ["NDBI"] d) ;;
  Ok (addBands img [ndvi; ndwi; ndbi]).

(** Generate median composite, fallback to non-masked version if needed. *)
Definition getComposite (geom : Geometry) : result Image :=
  s2 <- loadCollection S2 ;;
  let col := filterBounds geom (filterDate DATE_START DATE_END s2) in
  masked <- (if APPLY_CLOUD_MASK then mapM maskS2 col else Ok col) ;;
  let validCount := size masked in
  let selected := If (validCount >? 0)%Z masked col in
  med <- median selected ;;
  addIndices (clip geom med).

(** Sample ESA WorldCover to generate training points. *)
Definition remapFrom : list Q := [10; 20; 30; 40; 50; 60; 70; 80; 90; 95; 100].
Definition remapTo : list Q := [3; 3; 4; 4; 1; 2; 3; 0; 3; 3; 3].

Definition autoSamples (geom : Geometry) : result FeatureCollection :=
  world <- loadImage "ESA/WorldCover/v200/2021" ;;
  let wc := clip geom world in
  let from := remapFrom in
  let to := remapTo in
  labeled <- (r <- remap from to wc ;; rename ["class_auto"] r) ;;
  stratifiedSample labeled 500 "class_auto" geom 10 true 42.

(** Train a Random Forest classifier on the input data. *)
Definition trainRF (img : Image) (samples : FeatureCollection)
    (bands : list string) (classProp : string) : result Classifier :=
  sel <- select bands img ;;
  let training := sampleRegions sel samples [classProp] 10 in
  train (smileRandomForest 200 42) training classProp bands.

(** ** EXECUTION *)

Record VisParams : Type := mkVis {
  vis_min : Q;
  vis_max : Q;
  vis_palette : list string
}.

(** A map layer holds the deferred image it was given: the map evaluates
    it on its own when it draws, and shows the error if there is one. *)
Record Layer : Type := mkLayer {
  eeObject : result Image;
  visParams : VisParams;
  layerName : string
}.

Definition MapState : Type := list Layer.

Definition addLayer (m : MapState) (obj : result Image) (vis : VisParams)
    (name : string) : MapState :=
  m ++ [mkLayer obj vis name].

(** [ee.String(f.get(field)).getInfo()]: forced on the client; a missing
    or non-string property throws. *)
Definition getInfoString (f : Feature) (field : string) : result string :=
  match lookup field (properties f) with
  | Some (VStr s) => Ok s
  | _ => Err (PropertyNotFound field)
  end.

Definition inputBands : list string := BANDS10 ++ ["NDVI"; "NDWI"; "NDBI"].

(** The deferred objects one pass of the loop body builds: the script's
    variables geom, comp, samples, clf and lulc. *)
Record RegionRun : Type := mkRun {
  run_geom : result Geometry;
  run_comp : result Image;
  run_samples : result FeatureCollection;
  run_clf : result Classifier;
  run_lulc : result Image
}.

Definition regionRun (f : Feature) : RegionRun :=
  let geom := stableGeom f in
  let comp := g <- geom ;; getComposite g in
  let samples := g <- geom ;; autoSamples g in
  let clf := c <- comp ;; s <- samples ;; trainRF c s inputBands "class_auto" in
  let lulc :=
    c <- comp ;;
    sel <- select inputBands c ;;
    k <- clf ;;
    cl <- classify k sel ;;
    named <- rename ["LULC"] cl ;;
    g <- geom ;;
    Ok (clip g named) in
  mkRun geom comp samples clf lulc.

(** One pass of the loop body: the name is fetched eagerly, an exception
    there leaves the loop; everything else is deferred into the layers. *)
Definition loopBody (f : Feature) (m : MapState) : MapState * option error :=
  match getInfoString f NAME_FIELD with
  | Err e => (m, Some e)
  | Ok name =>
      let run := regionRun f in
      let m1 := addLayer m (c <- run_comp run ;; select ["B4"; "B3"; "B2"] c)
                         (mkVis 0 3000 []) (String.append "RGB - " name) in
      let m2 := addLayer m1 (run_lulc run)
                         (mkVis 0 4 CLASS_PALETTE) (String.append "LULC - " name) in
      (m2, None)
  end.

(** [for (var i = 0; i < n; i++)], with [todo] = n - i passes left. *)
Fixpoint forLoop (todo i : nat) (list : FeatureCollection) (m : MapState)
  : MapState * option error :=
  match todo with
  | O => (m, None)
  | S todo' =>
      match nth_error list i with
      | None => (m, Some (BadArguments "List.get"))
      | Some f =>
          match loopBody f m with
          | (m', Some e) => (m', Some e)
          | (m', None) => forLoop todo' (S i) list m'
          end
      end
  end.

(** The loop over [fc.toList(fc.size())], started on the map as the two
    calls before it (centering, boundary layer) left it. *)
Definition execution (fc : FeatureCollection) (m : MapState)
  : MapState * option error :=
  let list := fc in
  let n := List.length list in
  forLoop n 0 list m.

End Script.

(** ** Vocabulary of the properties *)

(** The scene-classification codes the claim lists: cloud, cirrus and
    snow/ice (8, 9, 10, 11), cloud shadow (3), saturated/defective (1). *)
Definition contaminated (s : Q) : bool :=
  existsb (Qeq_bool s) [8; 9; 10; 11; 3; 1].

(** The observations of band [name] at cell [p] that come from images
    whose SCL value at [p] is valid and not contaminated. *)
Definition cleanObservations (name : string) (p : Pixel) (col : ImageCollection)
  : list Q :=
  flat_map (fun img =>
              match lookup "SCL" (bands img) with
              | Some scl =>
                  match scl p with
                  | Some s =>
                      if contaminated s then []
                      else match lookup name (bands img) with
                           | Some r => match r p with Some v => [v] | None => [] end
                           | None => []
                           end
                  | None => []
                  end
              | None => []
              end) col.

(** The mask raster [maskS2] builds from the SCL band. *)
Definition sclMask (scl : Raster) : Raster :=
  r_not (r_or (r_or (r_or (r_or (r_or (r_eq 8 scl) (r_eq 9 scl)) (r_eq 10 scl))
                          (r_eq 11 scl))
                    (r_eq 3 scl))
              (r_eq 1 scl)).

(** A raster [r] is the normalized difference of [A] and [B]: wherever
    it is defined it equals (A - B) / (A + B) and lies in [-1, 1], and it
    is defined wherever both inputs are valid and not negative. *)
Definition isNormalizedDifference (r A B : Raster) : Prop :=
  (forall p v, r p = Some v ->
     exists x y, A p = Some x /\ B p = Some y /\
                 v = (x - y) / (x + y) /\ -1 <= v /\ v <= 1) /\
  (forall p x y, A p = Some x -> B p = Some y -> 0 <= x -> 0 <= y ->
     r p = Some ((x - y) / (x + y))).

(** The image [autoSamples] samples from: one band, class_auto, holding
    the remapped reference value inside the region. *)
Definition labelRaster (geom : Geometry) (reference : Raster) : Raster :=
  fun p =>
    match (if contains geom p then reference p else None) with
    | Some v => remapValue remapFrom remapTo v
    | None => None
    end.

Definition labeledImage (geom : Geometry) (world : Image) (reference : Raster) : Image :=
  {| bands := [("class_auto", labelRaster geom reference)];
     acquired := acquired world;
     footprint := Some geom |}.

(** The table [trainRF] hands to the forest. *)
Definition trainingTable (sel : Image) (samples : FeatureCollection)
    (bandList : list string) (classProp : string) : TrainingTable :=
  flat_map (trainingRow classProp bandList)
           (sampleRegions sel samples [classProp] 10).

(** The codes of the target taxonomy. *)
Definition TARGET_CLASSES : list Q := [0; 1; 2; 3; 4].

(** The value of band [name] of an image at a cell; a missing band reads
    as masked. *)
Definition valueAt (img : Image) (name : string) (p : Pixel) : option Q :=
  match lookup name (bands img) with
  | Some r => r p
  | None => None
  end.

Section LoopVocabulary.

Context {engine : Engine}.

(** The two layers one pass of the loop adds for a region. *)
Definition regionLayers (f : Feature) (name : string) : list Layer :=
  [ mkLayer (c <- run_comp (regionRun f) ;; select ["B4"; "B3"; "B2"] c)
            (mkVis 0 3000 []) (String.append "RGB - " name);
    mkLayer (run_lulc (regionRun f))
            (mkVis 0 4 CLASS_PALETTE) (String.append "LULC - " name) ].

Definition layersOf (f : Feature) : list Layer :=
  match getInfoString f NAME_FIELD with
  | Ok name => regionLayers f name
  | Err _ => []
  end.

Definition named (f : Feature) : Prop := exists name, getInfoString f NAME_FIELD = Ok name.

End LoopVocabulary.

(** ** A laboratory engine

    A small concrete engine, used to run the script on explicit inputs:
    assets are given, geometry operations are the identity, the sampler
    keeps the cells in grid order and a forest answers with the label of
    the first row.  With [alt] set, both do so for seed 42 only and work
    from the reversed list for every other seed. *)

Definition labOrder {A : Type} (alt : bool) (s : Z) (l : list A) : list A :=
  if alt && negb (s =? 42)%Z then rev l else l.

Definition labShuffle (alt : bool) (s : Z) (l : list Pixel) : list Pixel :=
  labOrder alt s l.

Definition labForest (alt : bool) (n : nat) (s : Z) (rows : TrainingTable)
  : result (list Q -> Q) :=
  match labOrder alt s rows with
  | [] => Err NoTrainingData
  | (_, y) :: _ => Ok (fun _ => y)
  end.

Definition labEngine (alt : bool) (s2 : result ImageCollection) (world : result Image)
  : Engine :=
  {| loadCollection := fun id => if String.eqb id S2 then s2 else Err (AssetNotFound id);
     loadImage := fun id => if String.eqb id "ESA/WorldCover/v200/2021"
                            then world else Err (AssetNotFound id);
     dissolve := fun g => Ok g;
     simplify := fun _ g => Ok g;
     shuffle := labShuffle alt;
     growForest := labForest alt |}.

(** ** Laboratory inputs *)

Definition plot : Geometry := [(0, 0); (1, 0)]%Z.

Definition flat (v : Q) : Raster := fun _ => Some v.

(** A scene over [plot] with reflectance 1200 in the ten bands, a second
    reflectance for B8, and one SCL code everywhere. *)
Definition scene (b8 scl : Q) (d : Date) : Image :=
  mkImage (map (fun n => (n, flat (if String.eqb n "B8" then b8 else 1200))) BANDS10
             ++ [("SCL", flat scl)])
          (Some d) (Some plot).

(** High cloud (SCL 9) over the whole plot, inside the date window. *)
Definition overcastScene : Image := scene 3000 9 (mkDate 2025 7 15).

(** Vegetation (SCL 4) over the whole plot, inside the date window. *)
Definition clearScene : Image := scene 3600 4 (mkDate 2025 7 20).

Definition noAsset {A : Type} : result A := Err (AssetNotFound "").

(** No band of the image has a valid cell inside the region. *)
Definition isBlank (region : Geometry) (img : Image) : bool :=
  forallb (fun b => forallb (fun p => negb (isSome (snd b p))) region) (bands img).

(** A strip of [n] cells along the first grid row. *)
Definition strip (n : nat) : Geometry := map (fun i => (Z.of_nat i, 0%Z)) (seq 0 n).

(** The region of the sampling experiment: 1200 cells in a row. *)
Definition field : Geometry := Eval vm_compute in strip 1200.

(** A reference raster with tree cover (code 10) west of column 600 and
    built-up (code 50) from there on. *)
Definition twoClassCover : Image :=
  mkImage [("Map", fun p => if (fst p <? 600)%Z then Some 10 else Some 50)] None None.

(** Reference rasters over the plot: tree cover on column 0 and built-up
    elsewhere; and one that is masked everywhere. *)
Definition plotCover : Image :=
  mkImage [("Map", fun p => if (fst p =? 0)%Z then Some 10 else Some 50)] None None.


(** Two municipalities: the first lies outside every scene, the second
    is the plot. *)
Definition cityA : Feature := mkFeature [(50, 50)%Z] [(NAME_FIELD, VStr "Alfa")].
Definition cityB : Feature := mkFeature plot [(NAME_FIELD, VStr "Beta")].

Definition labS2 : ImageCollection := [overcastScene; clearScene].

Definition lab : Engine := labEngine false (Ok labS2) (Ok plotCover).
Definition labAlt : Engine := labEngine true (Ok labS2) (Ok plotCover).
Definition labTwoClass : Engine := labEngine false noAsset (Ok twoClassCover).

Definition blank : Image := mkImage [] None None.

Definition fromOk {A : Type} (d : A) (c : result A) : A :=
  match c with Ok a => a | Err _ => d end.

Definition bandOr (name : string) (img : Image) : Raster :=
  match lookup name (bands img) with Some r => r | None => fun _ => None end.

Definition labComposite : Image := fromOk blank (getComposite (engine := lab) plot).

Definition labClassification : Image :=
  fromOk blank (run_lulc (regionRun (engine := lab) cityB)).

(** A scene without scene classification: the ten bands only. *)
Definition bareScene : Image :=
  mkImage (map (fun n => (n, flat 1500)) BANDS10) (Some (mkDate 2025 7 12)) (Some plot).

(** A scene half under cloud: SCL 9 on column 0, SCL 4 elsewhere. *)
Definition brokenCloudScene : Image :=
  mkImage (map (fun n => (n, flat 2000)) BANDS10
             ++ [("SCL", fun p => if (fst p =? 0)%Z then Some 9 else Some 4)])
          (Some (mkDate 2025 7 18)) (Some plot).

(** Engines over a single scene, and a feature without a name. *)
Definition labBare : Engine := labEngine false (Ok [bareScene]) noAsset.
Definition labOvercast : Engine := labEngine false (Ok [overcastScene]) (Ok plotCover).

Definition nameless : Feature := mkFeature plot [].

Definition labMasked : Image := fromOk blank (maskS2 brokenCloudScene).

Definition labSamples : FeatureCollection :=
  fromOk [] (autoSamples (engine := lab) plot).

Definition treeSample : Feature := mkFeature [(0, 0)%Z] [("class_auto", VNum 3)].




(** * Properties *)

(** ** Generic facts *)

Lemma bind_Ok {A B : Type} (c : result A) (k : A -> result B) (b : B) :
  (x <- c ;; k x) = Ok b -> exists a, c = Ok a /\ k a = Ok b.
Proof.
  destruct c as [a | e]; simpl; intros H; [now exists a | discriminate].
Qed.

(** Peel the first stage off a chain of deferred computations that is
    known to succeed. *)
Tactic Notation "peel" hyp(H) "into" ident(x) ident(Hx) :=
  apply bind_Ok in H as (x & Hx & H).

Lemma mapM_length {A B : Type} (f : A -> result B) (l : list A) (l' : list B) :
  mapM f l = Ok l' -> List.length l' = List.length l.
Proof.
  revert l'. induction l as [| x t IH]; simpl; intros l' H.
  - now injection H as <-.
  - peel H into y Hy.
    peel H into ys Hys.
    injection H as <-. simpl. f_equal. now apply IH.
Qed.

Lemma mapM_total {A B : Type} (f : A -> result B) (l : list A) :
  Forall (fun x => exists y, f x = Ok y) l -> exists l', mapM f l = Ok l'.
Proof.
  induction 1 as [| x t [y Hy] _ [ys Hys]]; simpl.
  - now exists [].
  - rewrite Hy, Hys. simpl. now exists (y :: ys).
Qed.

Lemma lookup_hasBand (n : string) (bs : list (string * Raster)) :
  hasBand n bs = true -> exists r, lookup n bs = Some r.
Proof.
  induction bs as [| [k v] t IH]; simpl; [discriminate |].
  destruct (String.eqb n k); simpl; [now exists v | exact IH].
Qed.

Lemma maskS2_total (img : Image) :
  hasBand "SCL" (bands img) = true -> exists img', maskS2 img = Ok img'.
Proof.
  intros H. apply lookup_hasBand in H as [r Hr].
  unfold maskS2, select, selectBand. simpl. rewrite Hr. simpl.
  eexists. reflexivity.
Qed.

(** C10.  Mapping [maskS2] over a collection whose images carry the SCL
    band succeeds and keeps every image: the mapped collection has the
    size of the original, so the test [validCount.gt(0)] of
    [getComposite] is true exactly when the unmasked collection is not
    empty, whatever the masks hide. *)
Theorem maskS2_map_keeps_size (col : ImageCollection) :
  Forall (fun img => hasBand "SCL" (bands img) = true) col ->
  exists masked,
    mapM maskS2 col = Ok masked /\
    size masked = size col /\
    ((size masked >? 0)%Z = true <-> col <> []).
Proof.
  intros Hscl.
  destruct (mapM_total maskS2 col) as [masked Hm].
  { eapply Forall_impl; [| exact Hscl]. intros img. apply maskS2_total. }
  exists masked. split; [exact Hm |].
  apply mapM_length in Hm. unfold size. rewrite Hm. split; [reflexivity |].
  destruct col as [| img t]; simpl List.length.
  - split; [discriminate | congruence].
  - split; [discriminate | intros _; apply Z.gtb_lt; lia].
Qed.

(** ** The laboratory engine meets the contracts *)

Lemma labOrder_In {A : Type} (alt : bool) (s : Z) (l : list A) (x : A) :
  In x (labOrder alt s l) -> In x l.
Proof.
  unfold labOrder. destruct (alt && negb (s =? 42)%Z); [apply in_rev | tauto].
Qed.

Lemma labShuffle_perm (alt : bool) (s : Z) (l : list Pixel) :
  Permutation (labShuffle alt s l) l.
Proof.
  unfold labShuffle, labOrder. destruct (alt && negb (s =? 42)%Z).
  - apply Permutation_sym, Permutation_rev.
  - apply Permutation_refl.
Qed.

Lemma labForest_votes (alt : bool) (n : nat) (s : Z) (rows : TrainingTable)
    (f : list Q -> Q) :
  labForest alt n s rows = Ok f -> forall x, In (f x) (map snd rows).
Proof.
  unfold labForest. intros Hf x.
  destruct (labOrder alt s rows) as [| [xs y] t] eqn:Hrows; [discriminate |].
  injection Hf as <-. apply (in_map snd rows (xs, y)).
  apply (labOrder_In alt s). rewrite Hrows. now left.
Qed.

#[global] Instance labEngine_fair (alt : bool) (s2 : result ImageCollection)
    (world : result Image) : FairSampler (labEngine alt s2 world).
Proof. exact (labShuffle_perm alt). Qed.

#[global] Instance labEngine_voting (alt : bool) (s2 : result ImageCollection)
    (world : result Image) : VotingForest (labEngine alt s2 world).
Proof. exact (labForest_votes alt). Qed.

(** ** Cloud masking and the composite *)

Lemma nonzero_ofBool (b : bool) : nonzero (ofBool b) = b.
Proof. now destruct b. Qed.

Lemma sclMask_at (scl : Raster) (p : Pixel) :
  sclMask scl p = option_map (fun s => ofBool (negb (contaminated s))) (scl p).
Proof.
  unfold sclMask, r_not, r_or, r_eq, contaminated.
  destruct (scl p) as [s |]; [| reflexivity].
  cbn [option_map existsb]. rewrite !nonzero_ofBool.
  rewrite orb_false_r, <- !orb_assoc. reflexivity.
Qed.

Lemma updateMask_sclMask_at (r scl : Raster) (p : Pixel) :
  r_updateMask r (sclMask scl) p =
  match r p, scl p with
  | Some v, Some s => if contaminated s then None else Some v
  | _, _ => None
  end.
Proof.
  unfold r_updateMask. rewrite sclMask_at.
  destruct (r p) as [v |]; [| reflexivity].
  destruct (scl p) as [s |]; [| reflexivity].
  cbn [option_map]. rewrite nonzero_ofBool. now destruct (contaminated s).
Qed.

Lemma maskS2_bands (img img' : Image) :
  maskS2 img = Ok img' ->
  exists scl,
    lookup "SCL" (bands img) = Some scl /\
    bands img' =
      map (fun b => (fst b, r_updateMask (snd b) (sclMask scl))) (bands img).
Proof.
  unfold maskS2, select, selectBand. simpl.
  destruct (lookup "SCL" (bands img)) as [scl |] eqn:Hscl; simpl; [| discriminate].
  intros H. injection H as <-. exists scl. split; reflexivity.
Qed.

Lemma lookup_map_snd {V W : Type} (F : V -> W) (n : string) (bs : list (string * V)) :
  lookup n (map (fun b => (fst b, F (snd b))) bs) = option_map F (lookup n bs).
Proof.
  induction bs as [| [k v] t IH]; simpl; [reflexivity |].
  now destruct (String.eqb n k).
Qed.

Lemma maskS2_bandNames (img img' : Image) :
  maskS2 img = Ok img' -> bandNames img' = bandNames img.
Proof.
  intros H. apply maskS2_bands in H as (scl & _ & Hb).
  unfold bandNames. rewrite Hb, map_map. reflexivity.
Qed.

Lemma observations_masked (name : string) (p : Pixel) (col masked : ImageCollection) :
  mapM maskS2 col = Ok masked ->
  observations name p masked = cleanObservations name p col.
Proof.
  revert masked. induction col as [| img t IH]; simpl; intros masked H.
  - now injection H as <-.
  - peel H into img' Himg.
    peel H into t' Ht. injection H as <-.
    simpl. rewrite (IH t' Ht). f_equal.
    apply maskS2_bands in Himg as (scl & Hscl & Hb).
    rewrite Hb, Hscl, (lookup_map_snd (fun r => r_updateMask r (sclMask scl))).
    destruct (lookup name (bands img)) as [r |]; simpl.
    + rewrite updateMask_sclMask_at.
      destruct (scl p) as [s |]; [| now destruct (r p)].
      destruct (contaminated s); now destruct (r p).
    + destruct (scl p) as [s |]; [| reflexivity]. now destruct (contaminated s).
Qed.

(** The fallback test never changes the collection: when the mapped
    collection is empty, so is the original one. *)
Lemma fallback_selects_masked (col masked : ImageCollection) :
  mapM maskS2 col = Ok masked ->
  If (size masked >? 0)%Z masked col = masked.
Proof.
  intros H. pose proof (mapM_length _ _ _ H) as Hlen.
  unfold If, size. destruct masked as [| m ms]; simpl.
  - destruct col; [reflexivity | discriminate].
  - reflexivity.
Qed.

Lemma names_eqb_eq (a b : list string) : names_eqb a b = true -> a = b.
Proof.
  revert b. induction a as [| x a IH]; intros [| y b]; simpl; try discriminate.
  - reflexivity.
  - intros H. apply andb_prop in H as [Hxy Hab].
    apply String.eqb_eq in Hxy. subst y. f_equal. now apply IH.
Qed.

Lemma lookup_tabulate {V : Type} (G : string -> V) (n : string) (names : list string) :
  In n names -> lookup n (map (fun k => (k, G k)) names) = Some (G n).
Proof.
  induction names as [| k t IH]; simpl; [tauto |].
  intros Hin. destruct (String.eqb n k) eqn:E.
  - apply String.eqb_eq in E. now subst k.
  - destruct Hin as [-> | Hin]; [| now apply IH].
    rewrite String.eqb_refl in E. discriminate.
Qed.

Lemma lookup_app_Some {V : Type} (k : string) (l l' : list (string * V)) (v : V) :
  lookup k l = Some v -> lookup k (l ++ l') = Some v.
Proof.
  induction l as [| [k' v'] t IH]; simpl; [discriminate |].
  destruct (String.eqb k k'); [tauto | exact IH].
Qed.

Lemma mapM_In {A B : Type} (f : A -> result B) (l : list A) (l' : list B) (x : A) :
  mapM f l = Ok l' -> In x l -> exists y, In y l' /\ f x = Ok y.
Proof.
  revert l'. induction l as [| a t IH]; simpl; intros l' H Hin; [tauto |].
  peel H into y Hy.
  peel H into ys Hys. injection H as <-.
  destruct Hin as [-> | Hin].
  - exists y. split; [now left | exact Hy].
  - destruct (IH ys Hys Hin) as (z & Hz & Hfz). exists z. split; [now right | exact Hfz].
Qed.

Lemma median_band (col : ImageCollection) (med img : Image) (b : string) :
  median col = Ok med -> In img col -> In b (bandNames img) ->
  lookup b (bands med) = Some (fun p => medianOf (observations b p col)).
Proof.
  unfold median. destruct col as [| first rest]; [intros _ [] |].
  destruct (forallb _ (first :: rest)) eqn:Hall; [| discriminate].
  intros H Himg Hb. injection H as <-. cbn [bands].
  rewrite forallb_forall in Hall. apply Hall, names_eqb_eq in Himg.
  rewrite Himg in Hb.
  exact (lookup_tabulate (fun n p => medianOf (observations n p (first :: rest)))
                         b (bandNames first) Hb).
Qed.

Lemma clip_band (geom : Geometry) (img : Image) (b : string) :
  lookup b (bands (clip geom img)) =
  option_map (fun r p => if contains geom p then r p else None) (lookup b (bands img)).
Proof.
  unfold clip. cbn [bands].
  exact (lookup_map_snd (fun (r : Raster) p => if contains geom p then r p else None)
                        b (bands img)).
Qed.

Lemma addBands_prefix (l acc : list (string * Raster)) :
  exists extra, fold_left addBand l acc = acc ++ extra.
Proof.
  revert acc. induction l as [| x t IH]; intros acc; simpl.
  - exists []. now rewrite app_nil_r.
  - destruct (IH (addBand acc x)) as [extra ->]. unfold addBand.
    rewrite <- app_assoc. eexists. reflexivity.
Qed.

Lemma medianOf_some (l : list Q) : l <> [] -> exists v, medianOf l = Some v.
Proof.
  destruct l as [| x t]; [congruence |]. intros _. unfold medianOf.
  destruct (Nat.even _); eexists; reflexivity.
Qed.

Section Composite.

Context {engine : Engine}.

Lemma addIndices_bands (img out : Image) :
  addIndices img = Ok out ->
  exists b8 b4 b3 b11,
    lookup "B8" (bands img) = Some b8 /\
    lookup "B4" (bands img) = Some b4 /\
    lookup "B3" (bands img) = Some b3 /\
    lookup "B11" (bands img) = Some b11 /\
    bands out =
      fold_left addBand
        [("NDVI", nd b8 b4); ("NDWI", nd b3 b8); ("NDBI", nd b11 b8)]
        (bands img).
Proof.
  unfold addIndices, normalizedDifference, selectBand.
  destruct (lookup "B8" (bands img)) as [b8 |]; [| discriminate].
  destruct (lookup "B4" (bands img)) as [b4 |]; [| discriminate].
  destruct (lookup "B3" (bands img)) as [b3 |]; [| discriminate].
  destruct (lookup "B11" (bands img)) as [b11 |]; [| discriminate].
  cbn. intros H. injection H as <-.
  exists b8, b4, b3, b11. repeat split; reflexivity.
Qed.

(** What [getComposite] computes, step by step, once it succeeds. *)
Lemma getComposite_steps (geom : Geometry) (comp : Image) :
  getComposite geom = Ok comp ->
  exists s2 masked med,
    loadCollection S2 = Ok s2 /\
    mapM maskS2 (filterBounds geom (filterDate DATE_START DATE_END s2)) = Ok masked /\
    median masked = Ok med /\
    addIndices (clip geom med) = Ok comp.
Proof.
  unfold getComposite. intros H.
  peel H into s2 Hs2.
  peel H into masked Hm.
  unfold APPLY_CLOUD_MASK in Hm. cbv zeta in H.
  pose proof (fallback_selects_masked _ _ Hm) as Hsel.
  unfold ImageCollection in *. rewrite Hsel in H.
  peel H into med Hmed.
  now exists s2, masked, med.
Qed.

End Composite.

(** ** Spectral indices *)

Lemma ratio_bounds (x y : Q) :
  0 <= x -> 0 <= y -> -1 <= (x - y) / (x + y) /\ (x - y) / (x + y) <= 1.
Proof.
  intros Hx Hy. destruct (Qlt_le_dec 0 (x + y)) as [Hpos | Hle].
  - split.
    + apply Qle_shift_div_l; [exact Hpos | lra].
    + apply Qle_shift_div_r; [exact Hpos | lra].
  - assert (Hz : x + y == 0) by lra.
    unfold Qdiv. rewrite Hz. change (/ 0) with 0.
    rewrite Qmult_0_r. split; discriminate.
Qed.

Lemma nd_isNormalizedDifference (A B : Raster) : isNormalizedDifference (nd A B) A B.
Proof.
  split.
  - intros p v. unfold nd.
    destruct (A p) as [x |]; [| discriminate].
    destruct (B p) as [y |]; [| discriminate].
    destruct (Qle_bool 0 x) eqn:Hx; [| discriminate].
    destruct (Qle_bool 0 y) eqn:Hy; [| discriminate].
    cbn [negb orb]. intros H. injection H as <-.
    apply Qle_bool_iff in Hx, Hy.
    exists x, y. repeat split; try reflexivity; now apply ratio_bounds.
  - intros p x y HA HB Hx Hy. unfold nd. rewrite HA, HB.
    apply Qle_bool_iff in Hx, Hy. now rewrite Hx, Hy.
Qed.

(** C9.  On an image that has no band called NDVI, NDWI or NDBI yet,
    [addIndices] appends exactly three bands under those names, and each
    is the normalized difference (A - B) / (A + B) of its band pair
    (B8, B4), (B3, B8), (B11, B8), with every defined value in [-1, 1]. *)
Theorem addIndices_appends_normalized_differences (img out : Image) :
  hasBand "NDVI" (bands img) = false ->
  hasBand "NDWI" (bands img) = false ->
  hasBand "NDBI" (bands img) = false ->
  addIndices img = Ok out ->
  exists b8 b4 b3 b11 ndvi ndwi ndbi,
    lookup "B8" (bands img) = Some b8 /\
    lookup "B4" (bands img) = Some b4 /\
    lookup "B3" (bands img) = Some b3 /\
    lookup "B11" (bands img) = Some b11 /\
    bands out = bands img ++ [("NDVI", ndvi); ("NDWI", ndwi); ("NDBI", ndbi)] /\
    isNormalizedDifference ndvi b8 b4 /\
    isNormalizedDifference ndwi b3 b8 /\
    isNormalizedDifference ndbi b11 b8.
Proof.
  intros Hv Hw Hb H.
  apply addIndices_bands in H as (b8 & b4 & b3 & b11 & H8 & H4 & H3 & H11 & Hout).
  exists b8, b4, b3, b11, (nd b8 b4), (nd b3 b8), (nd b11 b8).
  repeat (split; [assumption |]).
  split; [| repeat split; apply nd_isNormalizedDifference].
  rewrite Hout. cbn [fold_left]. unfold addBand. cbn [fst snd].
  unfold hasBand in *. rewrite !existsb_app, Hv, Hw, Hb. cbn.
  now rewrite <- !app_assoc.
Qed.

(** ** The composite under cloud masking *)

Section CompositeMasking.

Context {engine : Engine}.

(** C6.  With cloud masking enabled (the script sets APPLY_CLOUD_MASK
    to true), the value of a source band in the
    composite at a cell of the region is the median of the observations
    whose SCL code there is none of 8, 9, 10, 11 (cloud, cirrus,
    snow/ice), 3 (shadow) or 1 (saturated/defective): contaminated
    observations do not enter the aggregation, and the cell is defined
    whenever at least one clean observation exists. *)
Theorem composite_excludes_contaminated
    (geom : Geometry) (s2 : ImageCollection) (comp : Image)
    (b : string) (r : Raster) (p : Pixel) :
  loadCollection S2 = Ok s2 ->
  getComposite geom = Ok comp ->
  (exists img, In img (filterBounds geom (filterDate DATE_START DATE_END s2)) /\
               In b (bandNames img)) ->
  lookup b (bands comp) = Some r ->
  contains geom p = true ->
  r p = medianOf (cleanObservations b p
                    (filterBounds geom (filterDate DATE_START DATE_END s2))) /\
  (cleanObservations b p (filterBounds geom (filterDate DATE_START DATE_END s2)) <> [] ->
   exists v, r p = Some v).
Proof.
  intros Hs2 Hcomp (img & Himg & Hb) Hr Hp.
  apply getComposite_steps in Hcomp
    as (s2' & masked & med & Hs2' & Hm & Hmed & Hadd).
  rewrite Hs2 in Hs2'. injection Hs2' as <-.
  destruct (mapM_In _ _ _ _ Hm Himg) as (img' & Himg' & Hmask).
  apply maskS2_bandNames in Hmask. rewrite <- Hmask in Hb.
  pose proof (median_band _ _ _ _ Hmed Himg' Hb) as Hmedb.
  apply addIndices_bands in Hadd as (b8 & b4 & b3 & b11 & _ & _ & _ & _ & Hout).
  destruct (addBands_prefix
              [("NDVI", nd b8 b4); ("NDWI", nd b3 b8); ("NDBI", nd b11 b8)]
              (bands (clip geom med))) as [extra Hex].
  rewrite Hex in Hout.
  assert (Hlook : lookup b (bands comp) =
                  Some (fun q => if contains geom q
                                 then medianOf (observations b q masked)
                                 else None)).
  { rewrite Hout. apply lookup_app_Some. now rewrite clip_band, Hmedb. }
  rewrite Hr in Hlook. injection Hlook as ->.
  rewrite Hp, (observations_masked b p _ _ Hm).
  split; [reflexivity | apply medianOf_some].
Qed.

End CompositeMasking.

(** C1.  One scene in the window, fully covered by cloud, with valid
    reflectance underneath: the median of the unmasked collection is
    defined on the plot, yet [getComposite] returns a composite of
    fourteen bands that is masked on the whole plot.  The size test saw
    one image and kept the masked collection; the unmasked one was not
    used. *)
Theorem overcast_composite_is_blank :
  match median (filterBounds plot (filterDate DATE_START DATE_END [overcastScene])) with
  | Ok m => isBlank plot (clip plot m)
  | Err _ => true
  end = false /\
  match getComposite (engine := labEngine false (Ok [overcastScene]) noAsset) plot with
  | Ok comp => Nat.eqb (List.length (bands comp)) 14 && isBlank plot comp
  | Err _ => false
  end = true.
Proof.
  split; vm_compute; reflexivity.
Qed.

(** ** Sampling *)

Lemma In_firstn {A : Type} (n : nat) (l : list A) (x : A) :
  In x (firstn n l) -> In x l.
Proof.
  intros H. rewrite <- (firstn_skipn n l). apply in_or_app. now left.
Qed.

Lemma remapValue_In (from to : list Q) (v w : Q) :
  remapValue from to v = Some w -> In w to.
Proof.
  revert to. induction from as [| f fs IH]; intros [| t ts]; simpl; try discriminate.
  destruct (Qeq_bool v f).
  - intros H. injection H as <-. now left.
  - intros H. right. now apply IH.
Qed.

Section Sampling.

Context {engine : Engine} {fair : FairSampler engine}.

Lemma pointFeature_usable (img : Image) (g : bool) (p : Pixel) :
  isSome (pixelProps img p) = true ->
  List.length (pointFeature img g p) = 1%nat.
Proof.
  unfold pointFeature. now destruct (pixelProps img p).
Qed.

(** Where a stratified sample comes from: a usable cell of the region,
    whose class-band value is the stratum it was drawn for. *)
Lemma stratifiedSample_In (img : Image) (n : nat) (cb : string) (region : Geometry)
    (sc : Q) (g : bool) (seed : Z) (fc : FeatureCollection) (ft : Feature) :
  stratifiedSample img n cb region sc g seed = Ok fc ->
  In ft fc ->
  exists r p vals,
    lookup cb (bands img) = Some r /\
    In p region /\
    isSome (r p) = true /\
    pixelProps img p = Some vals /\
    ft = mkFeature (if g then [p] else []) vals.
Proof.
  unfold stratifiedSample, selectBand.
  destruct (lookup cb (bands img)) as [r |]; [| discriminate].
  cbn [bind snd]. intros H Hin. injection H as <-.
  apply in_flat_map in Hin as (c & _ & Hin).
  apply in_flat_map in Hin as (p & Hp & Hin).
  apply In_firstn in Hp.
  apply (Permutation_in _ (shuffle_perm seed _)) in Hp.
  apply filter_In in Hp as (Hp & Hc). apply filter_In in Hp as (Hp & _).
  unfold pointFeature in Hin.
  destruct (pixelProps img p) as [vals |] eqn:Hvals; [| contradiction].
  destruct Hin as [<- | []].
  exists r, p, vals. repeat split; try assumption.
  unfold classAt in Hc. now destruct (r p).
Qed.

Lemma pointFeatures_length (img : Image) (g : bool) (cells : list Pixel) :
  (forall p, In p cells -> isSome (pixelProps img p) = true) ->
  List.length (flat_map (pointFeature img g) cells) = List.length cells.
Proof.
  induction cells as [| p t IH]; intros Hall; [reflexivity |].
  cbn [flat_map]. rewrite length_app, pointFeature_usable by (apply Hall; now left).
  cbn [List.length Nat.add]. f_equal. apply IH. intros q Hq. apply Hall. now right.
Qed.

(** How many samples are drawn: for each stratum, [numPoints] or the
    number of usable cells of that stratum, whichever is smaller. *)
Lemma stratifiedSample_count (img : Image) (n : nat) (cb : string) (region : Geometry)
    (sc : Q) (g : bool) (seed : Z) (fc : FeatureCollection) :
  stratifiedSample img n cb region sc g seed = Ok fc ->
  exists r,
    lookup cb (bands img) = Some r /\
    let usable := filter (fun p => isSome (pixelProps img p)) region in
    List.length fc =
      list_sum (map (fun c => Nat.min n (List.length (filter (classAt r c) usable)))
                    (distinct (valuesOf r usable))).
Proof.
  unfold stratifiedSample, selectBand.
  destruct (lookup cb (bands img)) as [r |]; [| discriminate].
  cbn [bind snd]. intros H. injection H as <-.
  exists r. split; [reflexivity |]. cbv zeta.
  rewrite length_flat_map. f_equal. apply map_ext. intros c.
  rewrite pointFeatures_length.
  - rewrite length_firstn. f_equal. apply Permutation_length, shuffle_perm.
  - intros p Hp. apply In_firstn in Hp.
    apply (Permutation_in _ (shuffle_perm seed _)) in Hp.
    apply filter_In in Hp as (Hp & _). now apply filter_In in Hp as (_ & Hp).
Qed.

Lemma autoSamples_steps (geom : Geometry) (fc : FeatureCollection) :
  autoSamples geom = Ok fc ->
  exists world name reference others,
    loadImage "ESA/WorldCover/v200/2021" = Ok world /\
    bands world = (name, reference) :: others /\
    stratifiedSample (labeledImage geom world reference)
                     500 "class_auto" geom 10 true 42 = Ok fc.
Proof.
  unfold autoSamples. intros H.
  peel H into world Hw.
  peel H into labeled Hl.
  exists world. unfold remap, clip in Hl. cbn [bands] in Hl.
  replace (Nat.eqb (List.length remapFrom) (List.length remapTo)) with true in Hl
    by reflexivity.
  destruct (bands world) as [| [name reference] others]; [discriminate |].
  exists name, reference, others. repeat split; [exact Hw |].
  cbn [map bind fst snd] in Hl. unfold rename, withBands in Hl.
  cbn [bands List.length Nat.eqb combine map snd acquired footprint] in Hl.
  injection Hl as <-. exact H.
Qed.

Lemma pixelProps_labeled (geom : Geometry) (world : Image) (reference : Raster)
    (p : Pixel) :
  pixelProps (labeledImage geom world reference) p =
  option_map (fun v => [("class_auto", VNum v)]) (labelRaster geom reference p).
Proof.
  unfold pixelProps, labeledImage. cbn [bands mapO fst snd].
  now destruct (labelRaster geom reference p).
Qed.

(** Every sample [autoSamples] returns is a point of the region carrying
    one property, class_auto, whose value is the remapped reference
    value at that point: one of the entries of the remap table. *)
Lemma autoSamples_In (geom : Geometry) (fc : FeatureCollection) (ft : Feature) :
  autoSamples geom = Ok fc -> In ft fc ->
  exists world name reference others p v,
    loadImage "ESA/WorldCover/v200/2021" = Ok world /\
    bands world = (name, reference) :: others /\
    In p geom /\
    labelRaster geom reference p = Some v /\
    In v remapTo /\
    ft = mkFeature [p] [("class_auto", VNum v)].
Proof.
  intros H Hin.
  apply autoSamples_steps in H as (world & name & reference & others & Hw & Hb & H).
  destruct (stratifiedSample_In _ _ _ _ _ _ _ _ _ H Hin)
    as (r & p & vals & _ & Hp & _ & Hvals & ->).
  rewrite pixelProps_labeled in Hvals.
  destruct (labelRaster geom reference p) as [v |] eqn:Hv; [| discriminate].
  injection Hvals as <-.
  exists world, name, reference, others, p, v. repeat split; try assumption.
  unfold labelRaster in Hv.
  destruct (if contains geom p then reference p else None); [| discriminate].
  now apply remapValue_In in Hv.
Qed.

End Sampling.

Section SamplingQuota.

Context {engine : Engine} {fair : FairSampler engine}.

(** C2.  A region of 1200 cells, 600 of tree cover and 600 of built-up:
    [autoSamples] draws 500 points in each of the two strata, 1000 in
    all, whatever the engine's random choice. *)
Theorem autoSamples_draws_500_per_class :
  loadImage "ESA/WorldCover/v200/2021" = Ok twoClassCover ->
  exists fc, autoSamples (field) = Ok fc /\ List.length fc = 1000%nat.
Proof.
  intros Hload.
  destruct (autoSamples (field)) as [fc | e] eqn:Hs.
  - exists fc. split; [reflexivity |].
    apply autoSamples_steps in Hs as (world & name & reference & others & Hw & Hb & H).
    rewrite Hload in Hw. injection Hw as <-.
    cbn [bands twoClassCover] in Hb. injection Hb as <- <- <-.
    apply stratifiedSample_count in H as (r & Hr & Hlen).
    cbn [lookup labeledImage bands] in Hr. rewrite String.eqb_refl in Hr.
    injection Hr as <-. rewrite Hlen. vm_compute. reflexivity.
  - exfalso. unfold autoSamples in Hs. rewrite Hload in Hs. discriminate Hs.
Qed.

End SamplingQuota.

(** ** Training and inference *)

Lemma lookup_app {V : Type} (k : string) (l l' : list (string * V)) :
  lookup k (l ++ l') =
  match lookup k l with Some v => Some v | None => lookup k l' end.
Proof.
  induction l as [| [k' v'] t IH]; simpl; [reflexivity |].
  now destruct (String.eqb k k').
Qed.

Lemma lookup_not_In {V : Type} (k : string) (l : list (string * V)) :
  ~ In k (map fst l) -> lookup k l = None.
Proof.
  induction l as [| [k' v'] t IH]; simpl; [reflexivity |].
  intros Hn. destruct (String.eqb k k') eqn:E.
  - apply String.eqb_eq in E. subst k'. exfalso. apply Hn. now left.
  - apply IH. intros Hin. apply Hn. now right.
Qed.

Lemma mapO_ext_in {A B : Type} (f g : A -> option B) (l : list A) :
  (forall x, In x l -> f x = g x) -> mapO f l = mapO g l.
Proof.
  induction l as [| x t IH]; intros H; simpl; [reflexivity |].
  rewrite (H x) by now left. rewrite IH; [reflexivity |].
  intros y Hy. apply H. now right.
Qed.

Lemma selectBands_spec (img : Image) (names : list string) (bs : list (string * Raster)) :
  mapM (selectBand img) names = Ok bs ->
  map fst bs = names /\
  forall n, In n names -> lookup n bs = lookup n (bands img).
Proof.
  revert bs. induction names as [| k t IH]; simpl; intros bs H.
  - injection H as <-. split; [reflexivity | intros n []].
  - peel H into b Hb.
    peel H into bs' Hbs. injection H as <-.
    destruct (IH bs' Hbs) as (Hnames & Hlook).
    unfold selectBand in Hb.
    destruct (lookup k (bands img)) as [r |] eqn:Hk; [| discriminate].
    injection Hb as <-. split; [simpl; now f_equal |].
    intros n Hn. simpl. destruct (String.eqb n k) eqn:E.
    + apply String.eqb_eq in E. now subst k.
    + destruct Hn as [-> | Hn]; [| now apply Hlook].
      rewrite String.eqb_refl in E. discriminate.
Qed.

Lemma select_spec (names : list string) (img sel : Image) :
  select names img = Ok sel ->
  bandNames sel = names /\
  forall n, In n names -> lookup n (bands sel) = lookup n (bands img).
Proof.
  unfold select. intros H. peel H into bs Hbs.
  injection H as <-. cbn [bandNames withBands bands].
  now apply selectBands_spec.
Qed.

Lemma pixelProps_lookup (img : Image) (p : Pixel) (vals : list (string * value)) :
  pixelProps img p = Some vals ->
  forall n,
    match lookup n (bands img) with
    | Some r => exists v, r p = Some v /\ lookup n vals = Some (VNum v)
    | None => lookup n vals = None
    end.
Proof.
  unfold pixelProps. generalize (bands img) as bs. intros bs. revert vals.
  induction bs as [| [k r] t IH]; simpl; intros vals H n.
  - now injection H as <-.
  - destruct (r p) as [v |] eqn:Hv; simpl in H; [| discriminate].
    match type of H with
    | match ?m with _ => _ end = _ => destruct m as [vs |] eqn:Hvs; [| discriminate]
    end.
    injection H as <-. simpl. destruct (String.eqb n k).
    + now exists v.
    + now apply IH.
Qed.

Section Training.

Context {engine : Engine}.

Lemma trainingTable_In (sel : Image) (samples : FeatureCollection)
    (bandList : list string) (classProp : string) (xs : list Q) (y : Q) :
  bandNames sel = bandList ->
  ~ In classProp bandList ->
  In (xs, y) (trainingTable sel samples bandList classProp) ->
  exists ft p,
    In ft samples /\ In p (geometry ft) /\
    featureVector bandList sel p = Some xs /\
    numProp classProp ft = Some y.
Proof.
  intros Hnames Hfresh Hin. unfold trainingTable, sampleRegions in Hin.
  apply in_flat_map in Hin as (row & Hrow & Hin).
  apply in_flat_map in Hrow as (ft & Hft & Hrow).
  apply in_flat_map in Hrow as (p & Hp & Hrow).
  destruct (pixelProps sel p) as [vals |] eqn:Hvals; [| contradiction].
  destruct Hrow as [<- | []].
  exists ft, p. split; [exact Hft |]. split; [exact Hp |].
  pose proof (pixelProps_lookup _ _ _ Hvals) as Hlook.
  unfold trainingRow in Hin.
  assert (Hvec : mapO (fun n => numProp n (mkFeature [] (vals ++ copyProps [classProp] ft)))
                      bandList
                 = featureVector bandList sel p).
  { unfold featureVector. apply mapO_ext_in. intros n Hn.
    unfold numProp. cbn [properties]. rewrite lookup_app.
    specialize (Hlook n).
    destruct (lookup n (bands sel)) as [r |] eqn:Hr.
    - destruct Hlook as (v & -> & ->). reflexivity.
    - exfalso. rewrite <- Hnames in Hn. unfold bandNames in Hn.
      revert Hn Hr. generalize (bands sel) as bs.
      induction bs as [| [k r] t IH]; simpl; [tauto |].
      intros [-> | Hn]; [now rewrite String.eqb_refl |].
      destruct (String.eqb n k); [discriminate | now apply IH]. }
  assert (Hlab : numProp classProp (mkFeature [] (vals ++ copyProps [classProp] ft))
                 = numProp classProp ft).
  { unfold numProp. cbn [properties]. rewrite lookup_app.
    specialize (Hlook classProp).
    rewrite (lookup_not_In classProp (bands sel)) in Hlook
      by (fold (bandNames sel); now rewrite Hnames).
    rewrite Hlook. unfold copyProps. cbn [flat_map]. rewrite app_nil_r.
    destruct (lookup classProp (properties ft)) as [v |]; [| reflexivity].
    cbn [lookup]. now rewrite String.eqb_refl. }
  rewrite Hvec, Hlab in Hin.
  destruct (featureVector bandList sel p) as [xs' |]; [| contradiction].
  destruct (numProp classProp ft) as [y' |]; [| contradiction].
  destruct Hin as [Heq | []]. injection Heq as -> ->. now split.
Qed.

Lemma trainRF_steps (img : Image) (samples : FeatureCollection)
    (bandList : list string) (classProp : string) (clf : Classifier) :
  trainRF img samples bandList classProp = Ok clf ->
  exists sel,
    select bandList img = Ok sel /\
    schema clf = bandList /\
    growForest 200 42 (trainingTable sel samples bandList classProp) = Ok (decide clf).
Proof.
  unfold trainRF, train. intros H.
  peel H into sel Hsel.
  peel H into f Hf. injection H as <-.
  exists sel. repeat split; assumption.
Qed.

(** What the classification layer of a region is made of, once every
    stage has succeeded. *)
Lemma lulc_steps (f : Feature) (out : Image) :
  run_lulc (regionRun f) = Ok out ->
  exists g comp samples sel clf,
    stableGeom f = Ok g /\
    getComposite g = Ok comp /\
    autoSamples g = Ok samples /\
    select inputBands comp = Ok sel /\
    trainRF comp samples inputBands "class_auto" = Ok clf /\
    bands out =
      [("LULC", fun p => if contains g p
                         then option_map (decide clf) (featureVector (schema clf) sel p)
                         else None)].
Proof.
  unfold regionRun. cbn [run_lulc].
  destruct (stableGeom f) as [g |] eqn:Hg; [| discriminate].
  cbn [bind].
  destruct (getComposite g) as [comp |] eqn:Hcomp; [| discriminate].
  cbn [bind].
  destruct (select inputBands comp) as [sel |] eqn:Hsel; [| discriminate].
  cbn [bind].
  destruct (autoSamples g) as [samples |] eqn:Hsamples; [| discriminate].
  cbn [bind].
  destruct (trainRF comp samples inputBands "class_auto") as [clf |] eqn:Hclf;
    [| discriminate].
  cbn [bind]. unfold classify.
  destruct (select (schema clf) sel) as [chk |]; [| discriminate].
  cbn [bind]. unfold rename, withBands. cbn [bands List.length Nat.eqb combine map snd].
  cbn [bind]. intros H. injection H as <-.
  exists g, comp, samples, sel, clf. repeat split; try assumption; reflexivity.
Qed.

End Training.

(** ** Labels of the classification *)

Lemma remapTo_targets (v : Q) : In v remapTo -> In v TARGET_CLASSES.
Proof.
  unfold remapTo, TARGET_CLASSES. cbn [In]. intuition.
Qed.

Lemma targets_not_reference (v : Q) :
  In v TARGET_CLASSES -> ~ (exists c, In c remapFrom /\ v == c).
Proof.
  unfold TARGET_CLASSES, remapFrom. cbn [In].
  intros Hv (c & Hc & Heq).
  repeat (destruct Hv as [<- | Hv]; [| ]); try contradiction;
    repeat (destruct Hc as [<- | Hc]; [discriminate Heq |]); contradiction.
Qed.

Lemma class_auto_fresh : ~ In "class_auto" inputBands.
Proof.
  unfold inputBands, BANDS10. cbn [app In].
  intros H. repeat (destruct H as [H | H]; [discriminate H |]). exact H.
Qed.

Section Labels.

Context {engine : Engine} {fair : FairSampler engine} {voting : VotingForest engine}.

(** C5.  Whenever the classification of a region evaluates, every
    defined cell of every band of the raster holds one of the target
    codes 0, 1, 2, 3, 4, and therefore none of the reference codes of the
    remap table (10 .. 100): the samples carry remapped labels only, the
    training rows take their label from the samples, and the forest
    answers with the label of a training row. *)
Theorem classification_labels_in_taxonomy
    (f : Feature) (out : Image) (name : string) (r : Raster) (p : Pixel) (v : Q) :
  run_lulc (regionRun f) = Ok out ->
  In (name, r) (bands out) ->
  r p = Some v ->
  In v TARGET_CLASSES /\ ~ (exists c, In c remapFrom /\ v == c).
Proof.
  intros Hrun Hband Hv.
  apply lulc_steps in Hrun
    as (g & comp & samples & sel & clf & _ & _ & Hsamples & Hsel & Hclf & Hout).
  rewrite Hout in Hband. destruct Hband as [Heq | []]. injection Heq as _ <-.
  cbn beta in Hv.
  destruct (contains g p); [| discriminate].
  destruct (featureVector (schema clf) sel p) as [xs |]; [| discriminate].
  cbn [option_map] in Hv. injection Hv as <-.
  apply trainRF_steps in Hclf as (sel' & Hsel' & _ & Hgrow).
  rewrite Hsel in Hsel'. injection Hsel' as <-.
  pose proof (growForest_votes _ _ _ _ Hgrow xs) as Hvote.
  apply in_map_iff in Hvote as ((xs' & y) & Hy & Hrow). cbn [snd] in Hy. subst y.
  apply select_spec in Hsel as (Hnames & _).
  destruct (trainingTable_In _ _ _ _ _ _ Hnames class_auto_fresh Hrow)
    as (ft & q & Hft & _ & _ & Hlabel).
  destruct (autoSamples_In _ _ _ Hsamples Hft)
    as (world & n0 & reference & others & q' & v' & _ & _ & _ & _ & Hv' & ->).
  unfold numProp in Hlabel. cbn in Hlabel. injection Hlabel as <-.
  assert (Ht : In v' TARGET_CLASSES) by now apply remapTo_targets.
  split; [exact Ht | now apply targets_not_reference].
Qed.

(** C8.  Whenever the classification of a region evaluates, training and
    inference read the same thirteen bands in the same order: the ten
    spectral bands followed by NDVI, NDWI, NDBI.  The image sampled for
    training and the image classified are the same selection [sel] of the
    composite, its bands are the classifier's input properties, every
    training row is the feature vector of that selection at a sample
    point, and every classified cell is the forest's answer on the
    feature vector of that selection at the cell. *)
Theorem inference_uses_training_bands (f : Feature) (out : Image) :
  run_lulc (regionRun f) = Ok out ->
  exists g comp samples sel clf,
    run_geom (regionRun f) = Ok g /\
    run_comp (regionRun f) = Ok comp /\
    run_samples (regionRun f) = Ok samples /\
    run_clf (regionRun f) = Ok clf /\
    select inputBands comp = Ok sel /\
    inputBands = ["B2"; "B3"; "B4"; "B5"; "B6"; "B7"; "B8"; "B8A"; "B11"; "B12";
                  "NDVI"; "NDWI"; "NDBI"] /\
    bandNames sel = inputBands /\
    schema clf = inputBands /\
    (forall p, featureVector inputBands sel p = featureVector inputBands comp p) /\
    growForest 200 42 (trainingTable sel samples inputBands "class_auto")
      = Ok (decide clf) /\
    (forall xs y, In (xs, y) (trainingTable sel samples inputBands "class_auto") ->
       exists ft p, In ft samples /\ In p (geometry ft) /\
                    featureVector inputBands sel p = Some xs /\
                    numProp "class_auto" ft = Some y) /\
    bands out =
      [("LULC", fun p => if contains g p
                         then option_map (decide clf) (featureVector inputBands sel p)
                         else None)].
Proof.
  intros Hrun.
  apply lulc_steps in Hrun
    as (g & comp & samples & sel & clf & Hg & Hcomp & Hsamples & Hsel & Hclf & Hout).
  exists g, comp, samples, sel, clf.
  pose proof (trainRF_steps _ _ _ _ _ Hclf) as (sel' & Hsel' & Hschema & Hgrow).
  rewrite Hsel in Hsel'. injection Hsel' as <-.
  pose proof (select_spec _ _ _ Hsel) as (Hnames & Hlook).
  unfold regionRun. cbn [run_geom run_comp run_samples run_clf].
  rewrite Hg. cbn [bind]. rewrite Hcomp, Hsamples. cbn [bind].
  repeat (split; [first [assumption | reflexivity] |]).
  split.
  { intros p. unfold featureVector. apply mapO_ext_in. intros n Hn.
    now rewrite (Hlook n Hn). }
  split; [exact Hgrow |]. split.
  { intros xs y Hrow.
    exact (trainingTable_In _ _ _ _ _ _ Hnames class_auto_fresh Hrow). }
  rewrite Hout, Hschema. reflexivity.
Qed.

End Labels.

(** ** Regions without reference coverage *)


Section NoCoverage.

Context {engine : Engine}.

Lemma autoSamples_eq (geom : Geometry) (world : Image) (name : string)
    (reference : Raster) (others : list (string * Raster)) :
  loadImage "ESA/WorldCover/v200/2021" = Ok world ->
  bands world = (name, reference) :: others ->
  autoSamples geom =
  stratifiedSample (labeledImage geom world reference) 500 "class_auto" geom 10 true 42.
Proof.
  intros Hw Hb. unfold autoSamples. rewrite Hw. cbn [bind].
  unfold remap, clip. cbn [bands]. rewrite Hb.
  replace (Nat.eqb (List.length remapFrom) (List.length remapTo)) with true
    by reflexivity.
  reflexivity.
Qed.




End NoCoverage.

(** ** The execution loop *)

Section Loop.

Context {engine : Engine}.

Lemma loopBody_named (f : Feature) (name : string) (m : MapState) :
  getInfoString f NAME_FIELD = Ok name ->
  loopBody f m = (m ++ regionLayers f name, None).
Proof.
  intros H. unfold loopBody, addLayer, regionLayers. rewrite H.
  now rewrite <- app_assoc.
Qed.

Lemma forLoop_from (rest done : list Feature) (m : MapState) :
  Forall named rest ->
  forLoop (List.length rest) (List.length done) (done ++ rest) m =
  (m ++ flat_map layersOf rest, None).
Proof.
  revert done m. induction rest as [| f rest IH]; intros done m Hn.
  - simpl. now rewrite app_nil_r.
  - inversion Hn as [| ? ? [name Hname] Hrest]; subst.
    cbn [List.length forLoop].
    rewrite nth_error_app2, Nat.sub_diag by apply Nat.le_refl.
    cbn [nth_error]. rewrite (loopBody_named f name m Hname).
    replace (done ++ f :: rest) with ((done ++ [f]) ++ rest)
      by now rewrite <- app_assoc.
    replace (S (List.length done)) with (List.length (done ++ [f]))
      by (rewrite length_app; simpl; lia).
    rewrite (IH (done ++ [f]) _ Hrest).
    cbn [flat_map]. unfold layersOf at 2. rewrite Hname.
    now rewrite <- app_assoc.
Qed.

Lemma execution_completes (fc : FeatureCollection) (m : MapState) :
  Forall named fc ->
  execution fc m = (m ++ flat_map layersOf fc, None).
Proof.
  intros H. unfold execution. exact (forLoop_from fc [] m H).
Qed.

(** A failure at any stage of a region's pipeline ends in its
    classification: geometry, composite, samples or classifier. *)
Lemma stage_failure_reaches_lulc (f : Feature) :
  (exists e, run_geom (regionRun f) = Err e) \/
  (exists e, run_comp (regionRun f) = Err e) \/
  (exists e, run_samples (regionRun f) = Err e) \/
  (exists e, run_clf (regionRun f) = Err e) ->
  exists e, run_lulc (regionRun f) = Err e.
Proof.
  unfold regionRun. cbn [run_geom run_comp run_samples run_clf run_lulc].
  destruct (stableGeom f) as [g | e]; cbn [bind]; [| now exists e].
  destruct (getComposite g) as [comp | e]; cbn [bind]; [| now exists e].
  destruct (select inputBands comp) as [sel | e] eqn:Hsel; cbn [bind];
    [| now exists e].
  destruct (autoSamples g) as [samples | e]; cbn [bind]; [| now exists e].
  destruct (trainRF comp samples inputBands "class_auto") as [clf | e]; cbn [bind];
    [| now exists e].
  intros [[e H] | [[e H] | [[e H] | [e H]]]]; discriminate H.
Qed.

(** C3.  In a batch whose features all carry a name, the loop runs to its
    end whatever the regions' pipelines evaluate to: every region gets
    its two layers, in batch order.  If the pipeline of region A fails,
    the error sits in A's LULC layer, where the map reports it, and a
    later region B still gets its own classification: whenever B's
    pipeline evaluates to a raster, that raster is in B's LULC layer. *)
Theorem region_failure_does_not_stop_the_batch
    (before between after : list Feature) (A B : Feature)
    (nameA nameB : string) (m : MapState) (e : error) (out : Image) :
  Forall named (before ++ A :: between ++ B :: after) ->
  getInfoString A NAME_FIELD = Ok nameA ->
  getInfoString B NAME_FIELD = Ok nameB ->
  run_lulc (regionRun A) = Err e ->
  run_lulc (regionRun B) = Ok out ->
  exists m',
    execution (before ++ A :: between ++ B :: after) m = (m', None) /\
    m' = m ++ flat_map layersOf (before ++ A :: between ++ B :: after) /\
    In (mkLayer (Err e) (mkVis 0 4 CLASS_PALETTE) (String.append "LULC - " nameA)) m' /\
    In (mkLayer (Ok out) (mkVis 0 4 CLASS_PALETTE) (String.append "LULC - " nameB)) m'.
Proof.
  intros Hnamed HA HB HfailA HokB.
  eexists. split; [apply execution_completes, Hnamed |]. split; [reflexivity |].
  split.
  - apply in_or_app. right. apply in_flat_map. exists A. split.
    + apply in_or_app. right. now left.
    + unfold layersOf. rewrite HA. unfold regionLayers. rewrite HfailA.
      right. now left.
  - apply in_or_app. right. apply in_flat_map. exists B. split.
    + apply in_or_app. right. right. apply in_or_app. right. now left.
    + unfold layersOf. rewrite HB. unfold regionLayers. rewrite HokB.
      right. now left.
Qed.

(** The one eager step: a feature without the name property stops the
    loop there, with the layers added so far. *)
Lemma missing_name_stops_the_loop (f : Feature) (rest : list Feature) (m : MapState)
    (e : error) :
  getInfoString f NAME_FIELD = Err e ->
  execution (f :: rest) m = (m, Some e).
Proof.
  intros H. unfold execution. cbn [List.length forLoop nth_error].
  unfold loopBody. now rewrite H.
Qed.

End Loop.

(** ** Reproducibility *)

Section Reproducibility.

(** Two evaluations of the script, each against its own engine.  The
    engines serve the same assets and geometry operations, and their
    seeded procedures agree for seed 42 (sampler) and for 200 trees with
    seed 42 (forest); nothing is asked of them for any other seed. *)
Variables E1 E2 : Engine.

Hypothesis same_collection : @loadCollection E1 S2 = @loadCollection E2 S2.
Hypothesis same_reference :
  @loadImage E1 "ESA/WorldCover/v200/2021" = @loadImage E2 "ESA/WorldCover/v200/2021".
Hypothesis same_dissolve : forall g, @dissolve E1 g = @dissolve E2 g.
Hypothesis same_simplify : forall g, @simplify E1 50 g = @simplify E2 50 g.
Hypothesis same_draw : forall l, @shuffle E1 42%Z l = @shuffle E2 42%Z l.
Hypothesis same_forest :
  forall rows, @growForest E1 200%nat 42%Z rows = @growForest E2 200%nat 42%Z rows.

Lemma stableGeom_agree (f : Feature) : @stableGeom E1 f = @stableGeom E2 f.
Proof.
  unfold stableGeom. rewrite same_dissolve.
  destruct (@dissolve E2 (geometry f)) as [g |]; [| reflexivity].
  cbn [bind]. now rewrite same_simplify.
Qed.

Lemma getComposite_agree (g : Geometry) : @getComposite E1 g = @getComposite E2 g.
Proof.
  unfold getComposite. now rewrite same_collection.
Qed.

Lemma stratifiedSample_agree (img : Image) (n : nat) (cb : string) (region : Geometry)
    (sc : Q) (geoms : bool) :
  @stratifiedSample E1 img n cb region sc geoms 42 =
  @stratifiedSample E2 img n cb region sc geoms 42.
Proof.
  unfold stratifiedSample. destruct (selectBand img cb) as [b |]; [| reflexivity].
  cbn [bind]. f_equal. apply flat_map_ext. intros c. now rewrite same_draw.
Qed.

Lemma autoSamples_agree (g : Geometry) : @autoSamples E1 g = @autoSamples E2 g.
Proof.
  unfold autoSamples. rewrite same_reference.
  destruct (@loadImage E2 "ESA/WorldCover/v200/2021") as [world |]; [| reflexivity].
  cbn [bind].
  destruct (r <- remap remapFrom remapTo (clip g world) ;; rename ["class_auto"] r)
    as [labeled |]; [| reflexivity].
  cbn [bind]. apply stratifiedSample_agree.
Qed.

Lemma trainRF_agree (img : Image) (samples : FeatureCollection)
    (bandList : list string) (classProp : string) :
  @trainRF E1 img samples bandList classProp =
  @trainRF E2 img samples bandList classProp.
Proof.
  unfold trainRF, train. destruct (select bandList img) as [sel |]; [| reflexivity].
  cbn [bind numberOfTrees rfSeed]. now rewrite same_forest.
Qed.

Lemma regionRun_agree (f : Feature) : @regionRun E1 f = @regionRun E2 f.
Proof.
  unfold regionRun. rewrite stableGeom_agree.
  destruct (@stableGeom E2 f) as [g |]; [| reflexivity].
  cbn [bind]. rewrite getComposite_agree, autoSamples_agree.
  destruct (@getComposite E2 g) as [comp |]; [| reflexivity].
  cbn [bind].
  destruct (@autoSamples E2 g) as [samples |]; [| reflexivity].
  cbn [bind]. now rewrite trainRF_agree.
Qed.

Lemma forLoop_agree (todo i : nat) (list : FeatureCollection) (m : MapState) :
  @forLoop E1 todo i list m = @forLoop E2 todo i list m.
Proof.
  revert i m. induction todo as [| k IH]; intros i m; [reflexivity |].
  cbn [forLoop]. destruct (nth_error list i) as [f |]; [| reflexivity].
  unfold loopBody. rewrite regionRun_agree.
  destruct (getInfoString f NAME_FIELD); [apply IH | reflexivity].
Qed.

(** C4.  Two runs on the same region against the same assets, with the
    sampler and the forest reproducible for the seeds the script fixes
    (42 and 42), build the same sample set, the same classifier (hence
    the same predictions on every input) and the same classification
    raster, and any batch leaves the same layers on the map. *)
Theorem pipeline_is_reproducible (f : Feature) :
  run_samples (@regionRun E1 f) = run_samples (@regionRun E2 f) /\
  run_clf (@regionRun E1 f) = run_clf (@regionRun E2 f) /\
  (forall c1 c2, run_clf (@regionRun E1 f) = Ok c1 ->
                 run_clf (@regionRun E2 f) = Ok c2 ->
                 forall x, decide c1 x = decide c2 x) /\
  run_lulc (@regionRun E1 f) = run_lulc (@regionRun E2 f) /\
  (forall fc m, @execution E1 fc m = @execution E2 fc m).
Proof.
  rewrite regionRun_agree. repeat split.
  - intros c1 c2 H1 H2 x. rewrite H1 in H2. now injection H2 as <-.
  - intros fc m. apply forLoop_agree.
Qed.

End Reproducibility.

(** ** Runs on the laboratory inputs *)

Lemma maskS2_map_keeps_size_witness :
  exists masked,
    mapM maskS2 labS2 = Ok masked /\
    size masked = size labS2 /\
    ((size masked >? 0)%Z = true <-> labS2 <> []).
Proof.
  apply (maskS2_map_keeps_size labS2).
  repeat constructor.
Defined.

Lemma composite_excludes_contaminated_witness :
  bandOr "B8" labComposite (0, 0)%Z
    = medianOf (cleanObservations "B8" (0, 0)%Z
                  (filterBounds plot (filterDate DATE_START DATE_END labS2))) /\
  (cleanObservations "B8" (0, 0)%Z
     (filterBounds plot (filterDate DATE_START DATE_END labS2)) <> [] ->
   exists v, bandOr "B8" labComposite (0, 0)%Z = Some v).
Proof.
  apply (composite_excludes_contaminated (engine := lab) plot labS2 labComposite).
  - reflexivity.
  - vm_compute. reflexivity.
  - exists clearScene. split; [right; left; reflexivity |].
    vm_compute. tauto.
  - vm_compute. reflexivity.
  - reflexivity.
Defined.

Lemma addIndices_appends_normalized_differences_witness :
  exists b8 b4 b3 b11 ndvi ndwi ndbi,
    lookup "B8" (bands clearScene) = Some b8 /\
    lookup "B4" (bands clearScene) = Some b4 /\
    lookup "B3" (bands clearScene) = Some b3 /\
    lookup "B11" (bands clearScene) = Some b11 /\
    bands (fromOk blank (addIndices clearScene))
      = bands clearScene ++ [("NDVI", ndvi); ("NDWI", ndwi); ("NDBI", ndbi)] /\
    isNormalizedDifference ndvi b8 b4 /\
    isNormalizedDifference ndwi b3 b8 /\
    isNormalizedDifference ndbi b11 b8.
Proof.
  apply (addIndices_appends_normalized_differences clearScene); reflexivity.
Defined.

Lemma autoSamples_draws_500_per_class_witness :
  exists fc,
    autoSamples (engine := labTwoClass) field = Ok fc /\ List.length fc = 1000%nat.
Proof.
  apply (autoSamples_draws_500_per_class (engine := labTwoClass)).
  reflexivity.
Defined.

Lemma classification_labels_in_taxonomy_witness :
  bandOr "LULC" labClassification (0, 0)%Z = Some 3 /\
  (In 3 TARGET_CLASSES /\ ~ (exists c, In c remapFrom /\ 3 == c)).
Proof.
  split; [vm_compute; reflexivity |].
  apply (classification_labels_in_taxonomy (engine := lab) cityB labClassification
           "LULC" (bandOr "LULC" labClassification) (0, 0)%Z 3).
  - vm_compute. reflexivity.
  - vm_compute. left. reflexivity.
  - vm_compute. reflexivity.
Defined.

Lemma inference_uses_training_bands_witness :
  exists sel clf,
    select inputBands labComposite = Ok sel /\
    run_clf (regionRun (engine := lab) cityB) = Ok clf /\
    bandNames sel = inputBands /\
    schema clf = inputBands.
Proof.
  destruct (inference_uses_training_bands (engine := lab) cityB labClassification)
    as (g & comp & samples & sel & clf & _ & Hcomp & _ & Hclf & Hsel & _ & Hnames
        & Hschema & _).
  - vm_compute. reflexivity.
  - exists sel, clf. repeat split; try assumption.
    assert (Hc : comp = labComposite).
    { assert (H : run_comp (regionRun (engine := lab) cityB) = Ok labComposite)
        by (vm_compute; reflexivity).
      rewrite H in Hcomp. now injection Hcomp as <-. }
    now rewrite <- Hc.
Defined.



Lemma region_failure_does_not_stop_the_batch_witness :
  exists m',
    execution (engine := lab) [cityA; cityB] [] = (m', None) /\
    m' = flat_map (layersOf (engine := lab)) [cityA; cityB] /\
    In (mkLayer (Err (BandNotFound "B8")) (mkVis 0 4 CLASS_PALETTE) "LULC - Alfa") m' /\
    In (mkLayer (Ok labClassification) (mkVis 0 4 CLASS_PALETTE) "LULC - Beta") m'.
Proof.
  apply (region_failure_does_not_stop_the_batch (engine := lab)
           [] [] [] cityA cityB "Alfa" "Beta" [] (BandNotFound "B8") labClassification).
  - constructor; [exists "Alfa"; reflexivity |].
    constructor; [exists "Beta"; reflexivity | constructor].
  - reflexivity.
  - reflexivity.
  - vm_compute. reflexivity.
  - vm_compute. reflexivity.
Defined.

Lemma pipeline_is_reproducible_witness :
  @shuffle lab 7%Z plot <> @shuffle labAlt 7%Z plot /\
  run_samples (@regionRun lab cityB) = run_samples (@regionRun labAlt cityB) /\
  run_clf (@regionRun lab cityB) = run_clf (@regionRun labAlt cityB) /\
  (forall c1 c2, run_clf (@regionRun lab cityB) = Ok c1 ->
                 run_clf (@regionRun labAlt cityB) = Ok c2 ->
                 forall x, decide c1 x = decide c2 x) /\
  run_lulc (@regionRun lab cityB) = run_lulc (@regionRun labAlt cityB) /\
  (forall fc m, @execution lab fc m = @execution labAlt fc m).
Proof.
  split; [discriminate |].
  apply (pipeline_is_reproducible lab labAlt); try reflexivity; intros; reflexivity.
Defined.

(** * Further properties of the script *)

(** ** [maskS2] *)

Lemma hasBand_false_lookup (n : string) (bs : list (string * Raster)) :
  hasBand n bs = false -> lookup n bs = None.
Proof.
  induction bs as [| [k v] t IH]; cbn [hasBand existsb lookup fst]; [reflexivity |].
  destruct (String.eqb n k); [discriminate | exact IH].
Qed.

Lemma maskS2_without_SCL (img : Image) :
  hasBand "SCL" (bands img) = false -> maskS2 img = Err (BandNotFound "SCL").
Proof.
  intros H. apply hasBand_false_lookup in H.
  unfold maskS2, select, selectBand. cbn [mapM bind]. now rewrite H.
Qed.

Lemma mapM_first_error {A B : Type} (f : A -> result B) (l : list A) (x : A)
    (e0 : error) :
  (forall y e, In y l -> f y = Err e -> e = e0) ->
  In x l -> f x = Err e0 -> mapM f l = Err e0.
Proof.
  induction l as [| a t IH]; intros Hall Hin Hx; [destruct Hin |].
  cbn [mapM]. destruct (f a) as [b | e] eqn:Ha.
  - cbn [bind]. destruct Hin as [-> | Hin]; [congruence |].
    rewrite IH; [reflexivity | | exact Hin | exact Hx].
    intros y e Hy. apply Hall. now right.
  - cbn [bind]. f_equal. apply (Hall a e); [now left | exact Ha].
Qed.

Section MissingSCL.

Context {engine : Engine}.

(** X1.  With cloud masking on, one image without the SCL band among the
    images selected for a region is enough for the composite of that
    region to fail, with the error that no band matches SCL. *)
Theorem getComposite_fails_without_SCL
    (geom : Geometry) (s2 : ImageCollection) (img : Image) :
  loadCollection S2 = Ok s2 ->
  In img (filterBounds geom (filterDate DATE_START DATE_END s2)) ->
  hasBand "SCL" (bands img) = false ->
  getComposite geom = Err (BandNotFound "SCL").
Proof.
  intros Hs2 Himg Hscl. unfold getComposite. rewrite Hs2. cbn [bind].
  unfold APPLY_CLOUD_MASK.
  rewrite (mapM_first_error maskS2 _ img (BandNotFound "SCL")); [reflexivity | | | ].
  - intros y e _ Hy. unfold maskS2, select, selectBand in Hy. cbn [mapM bind] in Hy.
    destruct (lookup "SCL" (bands y)); [discriminate Hy | now injection Hy as <-].
  - exact Himg.
  - now apply maskS2_without_SCL.
Qed.

End MissingSCL.

Lemma maskS2_valueAt (img img' : Image) :
  maskS2 img = Ok img' ->
  forall b p,
    valueAt img' b p =
    match valueAt img b p, valueAt img "SCL" p with
    | Some v, Some s => if contaminated s then None else Some v
    | _, _ => None
    end.
Proof.
  intros H b p. pose proof (maskS2_bands _ _ H) as (scl & Hscl & Hb).
  unfold valueAt. rewrite Hb, Hscl.
  rewrite (lookup_map_snd (fun r => r_updateMask r (sclMask scl))).
  destruct (lookup b (bands img)) as [r |]; cbn [option_map]; [| reflexivity].
  apply updateMask_sclMask_at.
Qed.

(** X2.  [maskS2] only masks.  The result has the same bands in the same
    order and the same acquisition date and footprint; at every cell each
    band either keeps the value it had or becomes masked, and it keeps it
    exactly where the SCL band is valid and holds none of the codes 1, 3,
    8, 9, 10, 11. *)
Theorem maskS2_only_masks (img img' : Image) :
  maskS2 img = Ok img' ->
  bandNames img' = bandNames img /\
  acquired img' = acquired img /\
  footprint img' = footprint img /\
  forall b p,
    valueAt img' b p =
    match valueAt img b p, valueAt img "SCL" p with
    | Some v, Some s => if contaminated s then None else Some v
    | _, _ => None
    end.
Proof.
  intros H. pose proof (maskS2_bandNames _ _ H) as Hnames.
  pose proof (maskS2_bands _ _ H) as (scl & Hscl & Hb).
  split; [exact Hnames |].
  assert (Hmeta : acquired img' = acquired img /\ footprint img' = footprint img).
  { unfold maskS2, select, selectBand in H. cbn [mapM bind] in H.
    rewrite Hscl in H. cbn [bind] in H. injection H as <-.
    unfold updateMask, zipBands, img_not, img_or, img_eq, mapBands, withBands.
    cbn. split; reflexivity. }
  destruct Hmeta as [Ha Hf]. split; [exact Ha |]. split; [exact Hf |].
  now apply maskS2_valueAt.
Qed.

(** X3.  Masking twice is masking once: [maskS2] succeeds again on its own
    result and leaves every band unchanged at every cell. *)
Theorem maskS2_idempotent (img once : Image) :
  maskS2 img = Ok once ->
  exists twice,
    maskS2 once = Ok twice /\
    forall b p, valueAt twice b p = valueAt once b p.
Proof.
  intros H1.
  destruct (maskS2_total once) as [twice H2].
  { pose proof (maskS2_bands _ _ H1) as (scl & Hscl & Hb).
    unfold hasBand. rewrite Hb.
    clear - Hscl. revert Hscl. generalize (bands img) as bs.
    induction bs as [| [k v] t IH]; cbn [lookup map existsb fst]; [discriminate |].
    destruct (String.eqb "SCL" k); [reflexivity |]. cbn [orb]. exact IH. }
  exists twice. split; [exact H2 |]. intros b p.
  rewrite (maskS2_valueAt _ _ H2), !(maskS2_valueAt _ _ H1).
  destruct (valueAt img b p) as [v |]; [| reflexivity].
  destruct (valueAt img "SCL" p) as [s |]; [| reflexivity].
  destruct (contaminated s) eqn:Hs; [reflexivity |]. now rewrite Hs.
Qed.

(** ** [getComposite] *)

Lemma hasBand_names (n : string) (bs : list (string * Raster)) :
  hasBand n bs = existsb (String.eqb n) (map fst bs).
Proof.
  unfold hasBand. induction bs as [| x t IH]; cbn [existsb map]; [reflexivity |].
  now rewrite IH.
Qed.

Lemma median_empty_fails_indices (geom : Geometry) :
  addIndices (clip geom (mkImage [] None None)) = Err (BandNotFound "B8").
Proof. reflexivity. Qed.

Section CompositeFacts.

Context {engine : Engine}.

(** X4.  The fallback of [getComposite] is never taken to any effect: for
    every engine and region the function computes exactly the median
    composite of the masked collection, as if the size test and the
    unmasked alternative were not there. *)
Theorem getComposite_ignores_fallback (geom : Geometry) :
  getComposite geom =
  (s2 <- loadCollection S2 ;;
   masked <- mapM maskS2 (filterBounds geom (filterDate DATE_START DATE_END s2)) ;;
   med <- median masked ;;
   addIndices (clip geom med)).
Proof.
  unfold getComposite, APPLY_CLOUD_MASK.
  destruct (loadCollection S2) as [s2 | e]; [| reflexivity]. cbn [bind].
  destruct (mapM maskS2 (filterBounds geom (filterDate DATE_START DATE_END s2)))
    as [masked | e] eqn:Hm; [| reflexivity].
  cbn [bind]. cbv zeta.
  pose proof (fallback_selects_masked _ _ Hm) as Hsel.
  unfold ImageCollection in *. now rewrite Hsel.
Qed.

(** X5.  No imagery, no composite: when no image of the collection falls
    in the date window and meets the region, [getComposite] fails, and
    the error is that of [addIndices] looking for band B8 in the empty
    median. *)
Theorem getComposite_without_imagery (geom : Geometry) (s2 : ImageCollection) :
  loadCollection S2 = Ok s2 ->
  filterBounds geom (filterDate DATE_START DATE_END s2) = [] ->
  getComposite geom = Err (BandNotFound "B8").
Proof.
  intros Hs2 Hnone. unfold getComposite. rewrite Hs2. cbn [bind].
  rewrite Hnone. unfold APPLY_CLOUD_MASK. cbn [mapM bind]. cbv zeta.
  unfold If, size. cbn [List.length Z.of_nat Z.gtb Z.compare median bind].
  apply median_empty_fails_indices.
Qed.

(** The source bands of a composite, cell by cell. *)
Lemma composite_source_band (geom : Geometry) (s2 : ImageCollection) (comp : Image)
    (b : string) :
  loadCollection S2 = Ok s2 ->
  getComposite geom = Ok comp ->
  (exists img, In img (filterBounds geom (filterDate DATE_START DATE_END s2)) /\
               In b (bandNames img)) ->
  forall p,
    valueAt comp b p =
    if contains geom p
    then medianOf (cleanObservations b p
                     (filterBounds geom (filterDate DATE_START DATE_END s2)))
    else None.
Proof.
  intros Hs2 Hcomp (img & Himg & Hb) p.
  apply getComposite_steps in Hcomp
    as (s2' & masked & med & Hs2' & Hm & Hmed & Hadd).
  rewrite Hs2 in Hs2'. injection Hs2' as <-.
  destruct (mapM_In _ _ _ _ Hm Himg) as (img' & Himg' & Hmask).
  apply maskS2_bandNames in Hmask. rewrite <- Hmask in Hb.
  pose proof (median_band _ _ _ _ Hmed Himg' Hb) as Hmedb.
  apply addIndices_bands in Hadd as (b8 & b4 & b3 & b11 & _ & _ & _ & _ & Hout).
  destruct (addBands_prefix
              [("NDVI", nd b8 b4); ("NDWI", nd b3 b8); ("NDBI", nd b11 b8)]
              (bands (clip geom med))) as [extra Hex].
  rewrite Hex in Hout. unfold valueAt. rewrite Hout.
  rewrite (lookup_app_Some b _ extra
             (fun q => if contains geom q
                       then medianOf (observations b q masked) else None)).
  - now rewrite (observations_masked b p _ _ Hm).
  - now rewrite clip_band, Hmedb.
Qed.

(** X6.  A composite cell is never filled from contaminated data: inside
    the region, a source band of the composite is defined at a cell if
    and only if some image offers a clean observation there.  Where every
    observation is cloud, shadow, snow or defective the cell stays
    masked, however many unmasked observations exist. *)
Theorem composite_defined_iff_clean_observation
    (geom : Geometry) (s2 : ImageCollection) (comp : Image) (b : string) (p : Pixel) :
  loadCollection S2 = Ok s2 ->
  getComposite geom = Ok comp ->
  (exists img, In img (filterBounds geom (filterDate DATE_START DATE_END s2)) /\
               In b (bandNames img)) ->
  contains geom p = true ->
  ((exists v, valueAt comp b p = Some v) <->
   cleanObservations b p (filterBounds geom (filterDate DATE_START DATE_END s2)) <> []).
Proof.
  intros Hs2 Hcomp Hb Hp.
  rewrite (composite_source_band geom s2 comp b Hs2 Hcomp Hb p), Hp.
  split.
  - intros [v Hv] Hnil. rewrite Hnil in Hv. discriminate Hv.
  - apply medianOf_some.
Qed.

(** X7.  The composite is confined to the region: every band of it, the
    three indices included, is masked at every cell outside the
    geometry. *)
Theorem composite_masked_outside_region
    (geom : Geometry) (comp : Image) (name : string) (r : Raster) (p : Pixel) :
  getComposite geom = Ok comp ->
  In (name, r) (bands comp) ->
  contains geom p = false ->
  r p = None.
Proof.
  intros Hcomp Hin Hp.
  apply getComposite_steps in Hcomp as (s2 & masked & med & _ & _ & _ & Hadd).
  apply addIndices_bands in Hadd as (b8 & b4 & b3 & b11 & H8 & H4 & H3 & H11 & Hout).
  assert (Hclip : forall n q, lookup n (bands (clip geom med)) = Some q -> q p = None).
  { intros n q. rewrite clip_band.
    destruct (lookup n (bands med)) as [r0 |]; cbn [option_map]; [| discriminate].
    intros H. injection H as <-. now rewrite Hp. }
  assert (Hnd : forall a c, a p = None -> nd a c p = None).
  { intros a c Ha. unfold nd. now rewrite Ha. }
  assert (Hnd' : forall a c, c p = None -> nd a c p = None).
  { intros a c Hc. unfold nd. rewrite Hc. now destruct (a p). }
  rewrite Hout in Hin. cbn [fold_left] in Hin. unfold addBand in Hin.
  cbn [fst snd] in Hin.
  repeat (apply in_app_or in Hin as [Hin | Hin]).
  - unfold clip in Hin. cbn [bands] in Hin.
    apply in_map_iff in Hin as ([n0 r0] & Heq & _). injection Heq as _ <-.
    cbn [snd]. now rewrite Hp.
  - destruct Hin as [Heq | []]. injection Heq as _ <-.
    apply Hnd. exact (Hclip _ _ H8).
  - destruct Hin as [Heq | []]. injection Heq as _ <-.
    apply Hnd. exact (Hclip _ _ H3).
  - destruct Hin as [Heq | []]. injection Heq as _ <-.
    apply Hnd. exact (Hclip _ _ H11).
Qed.

(** X8.  The bands of a composite are the bands of the source images, in
    their order, followed by exactly three more; when no source band is
    called NDVI, NDWI or NDBI these three carry those names, in that
    order. *)
Theorem composite_band_list
    (geom : Geometry) (s2 : ImageCollection) (comp first : Image)
    (others : ImageCollection) :
  loadCollection S2 = Ok s2 ->
  filterBounds geom (filterDate DATE_START DATE_END s2) = first :: others ->
  getComposite geom = Ok comp ->
  (exists n1 n2 n3, bandNames comp = bandNames first ++ [n1; n2; n3]) /\
  (hasBand "NDVI" (bands first) = false ->
   hasBand "NDWI" (bands first) = false ->
   hasBand "NDBI" (bands first) = false ->
   bandNames comp = bandNames first ++ ["NDVI"; "NDWI"; "NDBI"]).
Proof.
  intros Hs2 Hcol Hcomp.
  apply getComposite_steps in Hcomp
    as (s2' & masked & med & Hs2' & Hm & Hmed & Hadd).
  rewrite Hs2 in Hs2'. injection Hs2' as <-. rewrite Hcol in Hm.
  cbn [mapM] in Hm. peel Hm into first' Hfirst. peel Hm into others' Hothers.
  injection Hm as <-.
  assert (Hnames : bandNames (clip geom med) = bandNames first).
  { unfold median in Hmed.
    destruct (forallb _ (first' :: others')); [| discriminate].
    injection Hmed as <-. unfold clip, bandNames. cbn [bands].
    rewrite !map_map. exact (maskS2_bandNames _ _ Hfirst). }
  apply addIndices_bands in Hadd as (b8 & b4 & b3 & b11 & _ & _ & _ & _ & Hout).
  cbn [fold_left] in Hout. unfold addBand in Hout. cbn [fst snd] in Hout.
  split.
  - unfold bandNames at 1. rewrite Hout, !map_app. cbn [map fst].
    fold (bandNames (clip geom med)). rewrite Hnames, <- !app_assoc.
    cbn [app]. eexists. eexists. eexists. reflexivity.
  - intros Hv Hw Hb.
    assert (Hhas : forall n, hasBand n (bands (clip geom med)) = hasBand n (bands first)).
    { intros n. rewrite !hasBand_names.
      fold (bandNames (clip geom med)) (bandNames first). now rewrite Hnames. }
    rewrite <- Hhas in Hv, Hw, Hb.
    unfold bandNames at 1. rewrite Hout.
    unfold hasBand in Hv, Hw, Hb |- *. rewrite !existsb_app, Hv, Hw, Hb. cbn.
    rewrite !map_app. cbn [map fst].
    change (map fst (map (fun b : string * (Pixel -> option Q) =>
                            (fst b, fun p : Pixel =>
                                      if contains geom p then snd b p else None))
                         (bands med)))
      with (bandNames (clip geom med)).
    rewrite Hnames, <- !app_assoc. reflexivity.
Qed.

End CompositeFacts.

(** ** [autoSamples] *)

Lemma remapValue_source (from to : list Q) (v w : Q) :
  remapValue from to v = Some w -> exists c, In c from /\ v == c.
Proof.
  revert to. induction from as [| f fs IH]; intros [| t ts]; cbn [remapValue];
    try discriminate.
  destruct (Qeq_bool v f) eqn:E.
  - intros _. exists f. split; [now left | now apply Qeq_bool_iff].
  - intros H. destruct (IH ts H) as (c & Hc & Hvc). exists c. split; [now right | exact Hvc].
Qed.

Lemma remapValue_unlisted (from to : list Q) (v : Q) :
  List.length from = List.length to ->
  remapValue from to v = None -> forall c, In c from -> ~ v == c.
Proof.
  revert to. induction from as [| f fs IH]; intros [| t ts] Hlen; cbn [remapValue];
    try discriminate; intros H c Hc; [destruct Hc |].
  destruct (Qeq_bool v f) eqn:E; [discriminate |].
  destruct Hc as [<- | Hc].
  - now apply Qeq_bool_neq.
  - apply (IH ts); [now injection Hlen | exact H | exact Hc].
Qed.

(** X9.  The remap table of [autoSamples] is defined exactly on the
    eleven listed reference codes, sends each of them into the taxonomy
    0..4, and reaches every one of the five classes; any other value is
    left without a label (masked). *)
Theorem remap_table_covers_taxonomy :
  (forall v w, remapValue remapFrom remapTo v = Some w ->
     In w TARGET_CLASSES /\ exists c, In c remapFrom /\ v == c) /\
  (forall v, remapValue remapFrom remapTo v = None ->
     forall c, In c remapFrom -> ~ v == c) /\
  (forall t, In t TARGET_CLASSES ->
     exists c, In c remapFrom /\ remapValue remapFrom remapTo c = Some t).
Proof.
  split; [| split].
  - intros v w H. split.
    + apply remapTo_targets. now apply remapValue_In in H.
    + now apply remapValue_source in H.
  - intros v. now apply remapValue_unlisted.
  - unfold TARGET_CLASSES. cbn [In].
    intros t [<- | [<- | [<- | [<- | [<- | []]]]]].
    + exists 80. split; [unfold remapFrom; cbn [In]; tauto | vm_compute; reflexivity].
    + exists 50. split; [unfold remapFrom; cbn [In]; tauto | vm_compute; reflexivity].
    + exists 60. split; [unfold remapFrom; cbn [In]; tauto | vm_compute; reflexivity].
    + exists 10. split; [unfold remapFrom; cbn [In]; tauto | vm_compute; reflexivity].
    + exists 30. split; [unfold remapFrom; cbn [In]; tauto | vm_compute; reflexivity].
Qed.

Lemma distinct_In (l : list Q) (x : Q) : In x (distinct l) -> In x l.
Proof.
  revert x. induction l as [| a t IH]; intros x; cbn [distinct]; [tauto |].
  intros [-> | H]; [now left |]. right. apply IH.
  now apply filter_In in H as [H _].
Qed.

Lemma distinct_NoDup (l : list Q) : NoDup (distinct l).
Proof.
  induction l as [| a t IH]; cbn [distinct]; constructor.
  - intros H. apply filter_In in H as [_ H]. now rewrite Qeq_bool_refl in H.
  - now apply NoDup_filter.
Qed.

Lemma distinct_complete (l : list Q) (v : Q) :
  In v l -> exists c, In c (distinct l) /\ Qeq_bool v c = true.
Proof.
  induction l as [| a t IH]; [intros [] |]. cbn [distinct].
  intros [-> | Hv].
  - exists v. split; [now left | apply Qeq_bool_refl].
  - destruct (IH Hv) as (c & Hc & Hvc).
    destruct (Qeq_bool c a) eqn:Hca.
    + exists a. split; [now left | exact (Qeq_bool_trans _ _ _ Hvc Hca)].
    + exists c. split; [| exact Hvc]. right. apply filter_In.
      split; [exact Hc | now rewrite Hca].
Qed.

Lemma valuesOf_In (r : Raster) (cells : list Pixel) (v : Q) :
  In v (valuesOf r cells) <-> exists p, In p cells /\ r p = Some v.
Proof.
  unfold valuesOf. rewrite in_flat_map. split.
  - intros (p & Hp & Hv). exists p. split; [exact Hp |].
    destruct (r p) as [w |]; [| destruct Hv]. destruct Hv as [-> | []]. reflexivity.
  - intros (p & Hp & Hv). exists p. split; [exact Hp |]. rewrite Hv. now left.
Qed.

Lemma quota_sum_le (n : nat) (f : Q -> nat) (l : list Q) :
  (list_sum (map (fun c => Nat.min n (f c)) l) <= n * List.length l)%nat.
Proof.
  induction l as [| a t IH]; cbn [map list_sum fold_right List.length];
    [rewrite Nat.mul_0_r; apply Nat.le_refl |].
  rewrite Nat.mul_succ_r. pose proof (Nat.le_min_l n (f a)).
  unfold list_sum in IH. lia.
Qed.

Lemma filter_filter_length {A : Type} (f g : A -> bool) (l : list A) :
  (List.length (filter f (filter g l)) <= List.length (filter f l))%nat.
Proof.
  induction l as [| a t IH]; cbn [filter]; [lia |].
  destruct (g a); destruct (f a) eqn:Hf; cbn [filter]; rewrite ?Hf;
    cbn [List.length]; lia.
Qed.

Section SamplingFacts.

Context {engine : Engine} {fair : FairSampler engine}.

(** X10.  Every sample of [autoSamples] is a point of the region that
    the reference raster covers with a listed code, and it carries one
    property, class_auto, holding the remap of that code: samples never
    lie outside the geometry and never carry a label the reference does
    not give at their own point. *)
Theorem autoSamples_points_and_labels
    (geom : Geometry) (fc : FeatureCollection) (ft : Feature) :
  autoSamples geom = Ok fc ->
  In ft fc ->
  exists world name reference others p code v,
    loadImage "ESA/WorldCover/v200/2021" = Ok world /\
    bands world = (name, reference) :: others /\
    ft = mkFeature [p] [("class_auto", VNum v)] /\
    In p geom /\ contains geom p = true /\
    reference p = Some code /\
    remapValue remapFrom remapTo code = Some v.
Proof.
  intros H Hin.
  destruct (autoSamples_In _ _ _ H Hin)
    as (world & name & reference & others & p & v & Hw & Hb & Hp & Hv & _ & ->).
  unfold labelRaster in Hv.
  destruct (contains geom p) eqn:Hc; [| discriminate].
  destruct (reference p) as [code |] eqn:Hcode; [| discriminate].
  exists world, name, reference, others, p, code, v. repeat split; assumption.
Qed.

(** X11.  [autoSamples] returns at most 2500 samples: 500 for each of the
    at most five classes of the taxonomy that occur in the region. *)
Theorem autoSamples_at_most_2500 (geom : Geometry) (fc : FeatureCollection) :
  autoSamples geom = Ok fc -> (List.length fc <= 2500)%nat.
Proof.
  intros H.
  apply autoSamples_steps in H as (world & name & reference & others & _ & _ & H).
  apply stratifiedSample_count in H as (r & Hr & Hlen).
  cbn [labeledImage bands lookup] in Hr. rewrite String.eqb_refl in Hr.
  injection Hr as <-. cbv zeta in Hlen. rewrite Hlen.
  eapply Nat.le_trans; [apply quota_sum_le |].
  set (classes := distinct _).
  assert (Hfive : (List.length classes <= 5)%nat).
  { change 5%nat with (List.length TARGET_CLASSES).
    apply NoDup_incl_length; [apply distinct_NoDup |].
    intros v Hv. apply distinct_In, valuesOf_In in Hv as (p & _ & Hv).
    apply remapTo_targets. unfold labelRaster in Hv.
    destruct (if contains geom p then reference p else None); [| discriminate].
    now apply remapValue_In in Hv. }
  lia.
Qed.

Lemma stratifiedSample_whole_class
    (img : Image) (n : nat) (cb : string) (region : Geometry) (sc : Q) (g : bool)
    (seed : Z) (fc : FeatureCollection) (r : Raster) (p : Pixel) (v : Q) :
  stratifiedSample img n cb region sc g seed = Ok fc ->
  lookup cb (bands img) = Some r ->
  In p region ->
  isSome (pixelProps img p) = true ->
  r p = Some v ->
  (List.length (filter (classAt r v) region) <= n)%nat ->
  forall ft, In ft (pointFeature img g p) -> In ft fc.
Proof.
  intros H Hr Hp Hok Hv Hsmall ft Hft.
  unfold stratifiedSample, selectBand in H. rewrite Hr in H.
  cbn [bind snd] in H. injection H as <-.
  set (usable := filter (fun q => isSome (pixelProps img q)) region).
  assert (Husable : In p usable) by (apply filter_In; now split).
  destruct (distinct_complete (valuesOf r usable) v) as (c & Hc & Hvc).
  { apply valuesOf_In. now exists p. }
  apply in_flat_map. exists c. split; [exact Hc |].
  apply in_flat_map. exists p. split; [| exact Hft].
  assert (Hsame : forall q, classAt r c q = classAt r v q).
  { intros q. unfold classAt. destruct (r q) as [w |]; [| reflexivity].
    apply eq_true_iff_eq. rewrite !Qeq_bool_iff. apply Qeq_bool_iff in Hvc.
    split; intros Hq; [now rewrite Hvc | now rewrite <- Hvc]. }
  rewrite firstn_all2.
  - apply (Permutation_in _ (Permutation_sym (shuffle_perm seed _))).
    apply filter_In. split; [exact Husable |].
    rewrite Hsame. unfold classAt. rewrite Hv. apply Qeq_bool_refl.
  - rewrite (Permutation_length (shuffle_perm seed _)).
    rewrite (filter_ext _ _ Hsame).
    eapply Nat.le_trans; [apply filter_filter_length | exact Hsmall].
Qed.

(** X12.  A class with no more than 500 cells in the region is sampled
    in full: every cell of the region whose remapped reference value is
    that class is among the samples, with that label. *)
Theorem autoSamples_takes_small_classes_whole
    (geom : Geometry) (fc : FeatureCollection) (world : Image) (name : string)
    (reference : Raster) (others : list (string * Raster)) (p : Pixel) (v : Q) :
  loadImage "ESA/WorldCover/v200/2021" = Ok world ->
  bands world = (name, reference) :: others ->
  autoSamples geom = Ok fc ->
  In p geom ->
  labelRaster geom reference p = Some v ->
  (List.length (filter (classAt (labelRaster geom reference) v) geom) <= 500)%nat ->
  In (mkFeature [p] [("class_auto", VNum v)]) fc.
Proof.
  intros Hw Hb H Hp Hv Hsmall.
  rewrite (autoSamples_eq geom world name reference others Hw Hb) in H.
  assert (Hprops : pixelProps (labeledImage geom world reference) p
                   = Some [("class_auto", VNum v)]).
  { rewrite pixelProps_labeled. now rewrite Hv. }
  apply (stratifiedSample_whole_class _ _ _ _ _ _ _ _
           (labelRaster geom reference) p v H).
  - cbn [labeledImage bands lookup]. now rewrite String.eqb_refl.
  - exact Hp.
  - now rewrite Hprops.
  - exact Hv.
  - exact Hsmall.
  - unfold pointFeature. rewrite Hprops. now left.
Qed.

End SamplingFacts.

(** ** [trainRF] *)

Lemma mapO_none {A B : Type} (f : A -> option B) (l : list A) (x : A) :
  In x l -> f x = None -> mapO f l = None.
Proof.
  induction l as [| a t IH]; [intros [] |]. cbn [mapO].
  intros [-> | Hin] Hx.
  - now rewrite Hx.
  - rewrite (IH Hin Hx). now destruct (f a).
Qed.

Lemma selectBands_In (img : Image) (names : list string) (bs : list (string * Raster))
    (n : string) :
  mapM (selectBand img) names = Ok bs -> In n names ->
  exists r, lookup n (bands img) = Some r /\ In (n, r) bs.
Proof.
  revert bs. induction names as [| k t IH]; intros bs H Hn; [destruct Hn |].
  cbn [mapM] in H. peel H into b Hb. peel H into bs' Hbs. injection H as <-.
  unfold selectBand in Hb.
  destruct (lookup k (bands img)) as [r |] eqn:Hk; [| discriminate].
  injection Hb as <-. destruct Hn as [-> | Hn].
  - exists r. split; [exact Hk | now left].
  - destruct (IH bs' Hbs Hn) as (r' & Hr' & Hin). exists r'.
    split; [exact Hr' | now right].
Qed.

Lemma sampleRegions_masked
    (img sel : Image) (samples : FeatureCollection) (bandList props : list string)
    (sc : Q) :
  select bandList img = Ok sel ->
  (forall ft p, In ft samples -> In p (geometry ft) ->
                exists b, In b bandList /\ valueAt img b p = None) ->
  sampleRegions sel samples props sc = [].
Proof.
  intros Hsel Hmasked. unfold sampleRegions.
  induction samples as [| ft t IH]; [reflexivity |]. cbn [flat_map].
  rewrite IH by (intros ft' q Hft'; apply Hmasked; now right).
  rewrite app_nil_r.
  assert (Hcells : forall q, In q (geometry ft) -> pixelProps sel q = None).
  { intros q Hq. destruct (Hmasked ft q (or_introl eq_refl) Hq) as (b & Hb & Hval).
    unfold select in Hsel. peel Hsel into bs Hbs. injection Hsel as <-.
    destruct (selectBands_In _ _ _ _ Hbs Hb) as (r & Hr & Hin).
    unfold valueAt in Hval. rewrite Hr in Hval.
    unfold pixelProps. cbn [withBands bands].
    apply (mapO_none _ bs (b, r) Hin). cbn [snd]. now rewrite Hval. }
  induction (geometry ft) as [| q qs IHq]; [reflexivity |]. cbn [flat_map].
  rewrite (Hcells q) by now left. cbn [app]. apply IHq.
  intros q' Hq'. apply Hcells. now right.
Qed.

Section TrainingFacts.

Context {engine : Engine} {voting : VotingForest engine}.

(** X14.  Samples over masked cells are dropped before training: if at
    every cell of every sample one of the requested bands is masked in
    the image, no training row is left, and what [trainRF] returns is
    what the trainer makes of the empty table. *)
Theorem trainRF_drops_masked_samples
    (img sel : Image) (samples : FeatureCollection) (bandList : list string)
    (classProp : string) :
  select bandList img = Ok sel ->
  (forall ft p, In ft samples -> In p (geometry ft) ->
                exists b, In b bandList /\ valueAt img b p = None) ->
  trainingTable sel samples bandList classProp = [] /\
  trainRF img samples bandList classProp =
    (forest <- growForest 200 42 [] ;; Ok (mkClassifier bandList forest)).
Proof.
  intros Hsel Hmasked.
  pose proof (sampleRegions_masked img sel samples bandList [classProp] 10
                Hsel Hmasked) as Hnone.
  split.
  - unfold trainingTable. now rewrite Hnone.
  - unfold trainRF, train. rewrite Hsel. cbn [bind numberOfTrees rfSeed].
    now rewrite Hnone.
Qed.

(** X15.  Samples of a single class give a constant classifier: when
    every sample carries the same label, whatever [trainRF] returns
    answers with that label on every input.  The script does not refuse
    a one-class training set. *)
Theorem trainRF_single_class_is_constant
    (img : Image) (samples : FeatureCollection) (bandList : list string)
    (classProp : string) (clf : Classifier) (c : Q) :
  ~ In classProp bandList ->
  (forall ft y, In ft samples -> numProp classProp ft = Some y -> y = c) ->
  trainRF img samples bandList classProp = Ok clf ->
  forall x, decide clf x = c.
Proof.
  intros Hfresh Hone H x.
  apply trainRF_steps in H as (sel & Hsel & _ & Hgrow).
  pose proof (growForest_votes _ _ _ _ Hgrow x) as Hvote.
  apply in_map_iff in Hvote as ((xs & y) & Hy & Hrow). cbn [snd] in Hy. subst y.
  apply select_spec in Hsel as (Hnames & _).
  destruct (trainingTable_In _ _ _ _ _ _ Hnames Hfresh Hrow)
    as (ft & q & Hft & _ & _ & Hlabel).
  exact (Hone ft _ Hft Hlabel).
Qed.

End TrainingFacts.

(** ** The execution loop, continued *)

Lemma mapO_some_iff {A B : Type} (f : A -> option B) (l : list A) :
  (exists ys, mapO f l = Some ys) <-> (forall x, In x l -> exists y, f x = Some y).
Proof.
  induction l as [| a t IH]; cbn [mapO].
  - split; [intros _ x [] | intros _; now exists []].
  - split.
    + intros [ys H] x [<- | Hx].
      * destruct (f a) as [y |]; [now exists y | discriminate].
      * apply IH; [| exact Hx].
        destruct (f a); [| discriminate].
        destruct (mapO f t) as [zs |]; [now exists zs | discriminate].
    + intros H. destruct (H a (or_introl eq_refl)) as [y ->].
      destruct (proj2 IH (fun x Hx => H x (or_intror Hx))) as [zs ->].
      now exists (y :: zs).
Qed.

Section LoopFacts.

Context {engine : Engine}.

Lemma forLoop_until_unnamed (before after done : list Feature) (f : Feature)
    (e : error) (m : MapState) (extra : nat) :
  Forall named before ->
  getInfoString f NAME_FIELD = Err e ->
  forLoop (List.length before + S extra) (List.length done)
          (done ++ before ++ f :: after) m =
  (m ++ flat_map layersOf before, Some e).
Proof.
  revert done m. induction before as [| b rest IH]; intros done m Hn Hf.
  - cbn [List.length Nat.add forLoop app].
    rewrite nth_error_app2, Nat.sub_diag by apply Nat.le_refl.
    cbn [nth_error]. unfold loopBody. rewrite Hf. cbn [flat_map].
    now rewrite app_nil_r.
  - inversion Hn as [| ? ? [name Hname] Hrest]; subst.
    cbn [List.length Nat.add forLoop].
    rewrite nth_error_app2, Nat.sub_diag by apply Nat.le_refl.
    cbn [app nth_error]. rewrite (loopBody_named b name m Hname).
    replace (done ++ b :: rest ++ f :: after)
      with ((done ++ [b]) ++ rest ++ f :: after) by now rewrite <- app_assoc.
    replace (S (List.length done)) with (List.length (done ++ [b]))
      by (rewrite length_app; simpl; lia).
    rewrite (IH (done ++ [b]) _ Hrest Hf).
    cbn [flat_map]. unfold layersOf at 2. rewrite Hname.
    now rewrite <- app_assoc.
Qed.

(** X16.  A feature whose name cannot be read stops the whole batch: the
    regions before it keep their layers, the feature itself and every
    region after it get none, and the loop ends with the error of the
    name lookup. *)
Theorem unnamed_feature_stops_the_batch
    (before after : list Feature) (f : Feature) (e : error) (m : MapState) :
  Forall named before ->
  getInfoString f NAME_FIELD = Err e ->
  execution (before ++ f :: after) m = (m ++ flat_map layersOf before, Some e).
Proof.
  intros Hn Hf. unfold execution.
  replace (List.length (before ++ f :: after))
    with (List.length before + S (List.length after))%nat
    by (rewrite length_app; reflexivity).
  exact (forLoop_until_unnamed before after [] f e m (List.length after) Hn Hf).
Qed.

(** X17.  The classification raster has one band, LULC, and it is
    defined exactly where it can be: at the cells of the region where
    all thirteen input bands of the composite are valid.  Cells outside
    the region and cells with a masked input stay masked. *)
Theorem classification_defined_where_inputs_are (f : Feature) (out : Image) :
  run_lulc (regionRun f) = Ok out ->
  exists g comp,
    run_geom (regionRun f) = Ok g /\
    run_comp (regionRun f) = Ok comp /\
    bandNames out = ["LULC"] /\
    forall p,
      (exists v, valueAt out "LULC" p = Some v) <->
      (contains g p = true /\
       forall b, In b inputBands -> exists x, valueAt comp b p = Some x).
Proof.
  intros Hrun.
  apply lulc_steps in Hrun
    as (g & comp & samples & sel & clf & Hg & Hcomp & _ & Hsel & Hclf & Hout).
  exists g, comp.
  apply trainRF_steps in Hclf as (_ & _ & Hschema & _).
  pose proof (select_spec _ _ _ Hsel) as (_ & Hlook).
  split; [unfold regionRun; cbn [run_geom]; exact Hg |].
  split; [unfold regionRun; cbn [run_comp]; rewrite Hg; exact Hcomp |].
  split; [unfold bandNames; now rewrite Hout |].
  intros p. unfold valueAt at 1. rewrite Hout. cbn [lookup].
  rewrite String.eqb_refl, Hschema.
  assert (Hvec : (exists xs, featureVector inputBands sel p = Some xs) <->
                 forall b, In b inputBands -> exists x, valueAt comp b p = Some x).
  { unfold featureVector. rewrite mapO_some_iff. unfold valueAt.
    split; intros H b Hb; specialize (H b Hb).
    - now rewrite (Hlook b Hb) in H.
    - now rewrite (Hlook b Hb). }
  destruct (contains g p).
  - rewrite <- Hvec. split.
    + intros [v Hv]. split; [reflexivity |].
      destruct (featureVector inputBands sel p) as [xs |]; [now exists xs | discriminate].
    + intros [_ [xs ->]]. eexists. reflexivity.
  - split; [intros [v Hv]; discriminate | intros [Hc _]; discriminate].
Qed.

End LoopFacts.

(** ** From clouds to an empty training table *)

Lemma In_contains (g : Geometry) (p : Pixel) : In p g -> contains g p = true.
Proof.
  intros H. unfold contains. apply existsb_exists. exists p. split; [exact H |].
  unfold pixel_eqb. now rewrite !Z.eqb_refl.
Qed.

Section CloudyRegions.

Context {engine : Engine} {fair : FairSampler engine}.

Lemma composite_has_B8 (geom : Geometry) (s2 : ImageCollection) (comp : Image) :
  loadCollection S2 = Ok s2 ->
  getComposite geom = Ok comp ->
  exists img, In img (filterBounds geom (filterDate DATE_START DATE_END s2)) /\
              In "B8" (bandNames img).
Proof.
  intros Hs2 Hcomp.
  apply getComposite_steps in Hcomp
    as (s2' & masked & med & Hs2' & Hm & Hmed & Hadd).
  rewrite Hs2 in Hs2'. injection Hs2' as <-.
  apply addIndices_bands in Hadd as (b8 & _ & _ & _ & H8 & _).
  rewrite clip_band in H8.
  destruct (lookup "B8" (bands med)) as [r |] eqn:Hr; [| discriminate].
  destruct (filterBounds geom (filterDate DATE_START DATE_END s2))
    as [| first others] eqn:Hcol.
  - cbn [mapM] in Hm. injection Hm as <-. cbn [median] in Hmed.
    injection Hmed as <-. discriminate Hr.
  - exists first. split; [now left |].
    cbn [mapM] in Hm. peel Hm into first' Hfirst. peel Hm into others' Hothers.
    injection Hm as <-. unfold median in Hmed.
    destruct (forallb _ (first' :: others')); [| discriminate].
    injection Hmed as <-. cbn [bands] in Hr.
    rewrite <- (maskS2_bandNames _ _ Hfirst).
    destruct (in_dec string_dec "B8" (bandNames first')) as [Hin | Hout];
      [exact Hin |].
    rewrite lookup_not_In in Hr; [discriminate |].
    rewrite map_map. rewrite (map_ext _ (fun x : string => x)) by reflexivity.
    rewrite map_id. exact Hout.
Qed.

(** X18.  Clouds over the training points leave nothing to train on.
    If at every sample point every observation of band B8 is
    contaminated then, for a composite that was built, band B8 of the
    composite is masked at every sample point, every training row is
    dropped, and the classifier of the region is what the trainer makes
    of the empty table. *)
Theorem cloudy_samples_leave_nothing_to_train_on
    (f : Feature) (g : Geometry) (s2 : ImageCollection) (comp sel : Image)
    (samples : FeatureCollection) :
  stableGeom f = Ok g ->
  loadCollection S2 = Ok s2 ->
  getComposite g = Ok comp ->
  select inputBands comp = Ok sel ->
  autoSamples g = Ok samples ->
  (forall ft p, In ft samples -> In p (geometry ft) ->
     cleanObservations "B8" p (filterBounds g (filterDate DATE_START DATE_END s2)) = []) ->
  (forall ft p, In ft samples -> In p (geometry ft) -> valueAt comp "B8" p = None) /\
  trainingTable sel samples inputBands "class_auto" = [] /\
  run_clf (regionRun f) =
    (forest <- growForest 200 42 [] ;; Ok (mkClassifier inputBands forest)).
Proof.
  intros Hg Hs2 Hcomp Hsel Hsamples Hcloud.
  assert (Hb8 : forall ft p, In ft samples -> In p (geometry ft) ->
                  valueAt comp "B8" p = None).
  { intros ft p Hft Hp.
    destruct (autoSamples_In _ _ _ Hsamples Hft)
      as (_ & _ & _ & _ & q & v & _ & _ & Hq & _ & _ & Heq).
    pose proof (Hcloud ft p Hft Hp) as Hnone.
    subst ft. cbn [geometry] in Hp. destruct Hp as [<- | []].
    rewrite (composite_source_band g s2 comp "B8" Hs2 Hcomp
               (composite_has_B8 g s2 comp Hs2 Hcomp) q).
    rewrite (In_contains g q Hq). now rewrite Hnone. }
  assert (Hmasked : forall ft p, In ft samples -> In p (geometry ft) ->
                      exists b, In b inputBands /\ valueAt comp b p = None).
  { intros ft p Hft Hp. exists "B8". split; [| now apply (Hb8 ft)].
    unfold inputBands, BANDS10. cbn [app In]. tauto. }
  pose proof (sampleRegions_masked comp sel samples inputBands ["class_auto"] 10
                Hsel Hmasked) as Hnone.
  split; [exact Hb8 |]. split.
  - unfold trainingTable. now rewrite Hnone.
  - unfold regionRun. cbn [run_clf]. rewrite Hg. cbn [bind].
    rewrite Hcomp, Hsamples. cbn [bind]. unfold trainRF, train.
    rewrite Hsel. cbn [bind numberOfTrees rfSeed]. now rewrite Hnone.
Qed.

End CloudyRegions.

(** ** More runs on the laboratory inputs *)

Lemma getComposite_fails_without_SCL_witness :
  getComposite (engine := labBare) plot = Err (BandNotFound "SCL").
Proof.
  apply (getComposite_fails_without_SCL (engine := labBare) plot [bareScene] bareScene).
  - reflexivity.
  - vm_compute. left. reflexivity.
  - reflexivity.
Defined.

Lemma maskS2_only_masks_witness :
  bandNames labMasked = bandNames brokenCloudScene /\
  acquired labMasked = acquired brokenCloudScene /\
  footprint labMasked = footprint brokenCloudScene /\
  forall b p,
    valueAt labMasked b p =
    match valueAt brokenCloudScene b p, valueAt brokenCloudScene "SCL" p with
    | Some v, Some s => if contaminated s then None else Some v
    | _, _ => None
    end.
Proof.
  apply (maskS2_only_masks brokenCloudScene labMasked). reflexivity.
Defined.

Lemma maskS2_idempotent_witness :
  exists twice,
    maskS2 labMasked = Ok twice /\
    forall b p, valueAt twice b p = valueAt labMasked b p.
Proof.
  apply (maskS2_idempotent brokenCloudScene labMasked). reflexivity.
Defined.

Lemma getComposite_without_imagery_witness :
  getComposite (engine := lab) [(50, 50)%Z] = Err (BandNotFound "B8").
Proof.
  apply (getComposite_without_imagery (engine := lab) [(50, 50)%Z] labS2);
    reflexivity.
Defined.

Lemma composite_defined_iff_clean_observation_witness :
  (exists v, valueAt labComposite "B8" (0, 0)%Z = Some v) <->
  cleanObservations "B8" (0, 0)%Z
    (filterBounds plot (filterDate DATE_START DATE_END labS2)) <> [].
Proof.
  apply (composite_defined_iff_clean_observation (engine := lab)
           plot labS2 labComposite "B8" (0, 0)%Z).
  - reflexivity.
  - vm_compute. reflexivity.
  - exists clearScene. split; [right; left; reflexivity |].
    vm_compute. tauto.
  - reflexivity.
Defined.

Lemma composite_masked_outside_region_witness :
  bandOr "B2" labComposite (5, 5)%Z = None.
Proof.
  apply (composite_masked_outside_region (engine := lab) plot labComposite "B2").
  - vm_compute. reflexivity.
  - vm_compute. left. reflexivity.
  - reflexivity.
Defined.

Lemma composite_band_list_witness :
  (exists n1 n2 n3, bandNames labComposite = bandNames overcastScene ++ [n1; n2; n3]) /\
  (hasBand "NDVI" (bands overcastScene) = false ->
   hasBand "NDWI" (bands overcastScene) = false ->
   hasBand "NDBI" (bands overcastScene) = false ->
   bandNames labComposite = bandNames overcastScene ++ ["NDVI"; "NDWI"; "NDBI"]).
Proof.
  apply (composite_band_list (engine := lab) plot labS2 labComposite
           overcastScene [clearScene]).
  - reflexivity.
  - reflexivity.
  - vm_compute. reflexivity.
Defined.

Lemma autoSamples_points_and_labels_witness :
  exists world name reference others p code v,
    loadImage (Engine := lab) "ESA/WorldCover/v200/2021" = Ok world /\
    bands world = (name, reference) :: others /\
    treeSample = mkFeature [p] [("class_auto", VNum v)] /\
    In p plot /\ contains plot p = true /\
    reference p = Some code /\
    remapValue remapFrom remapTo code = Some v.
Proof.
  apply (autoSamples_points_and_labels (engine := lab) plot labSamples treeSample).
  - vm_compute. reflexivity.
  - vm_compute. left. reflexivity.
Defined.

Lemma autoSamples_at_most_2500_witness : (List.length labSamples <= 2500)%nat.
Proof.
  apply (autoSamples_at_most_2500 (engine := lab) plot labSamples).
  vm_compute. reflexivity.
Defined.

Lemma autoSamples_takes_small_classes_whole_witness : In treeSample labSamples.
Proof.
  apply (autoSamples_takes_small_classes_whole (engine := lab) plot labSamples
           plotCover "Map" (fun p => if (fst p =? 0)%Z then Some 10 else Some 50)
           [] (0, 0)%Z 3).
  - reflexivity.
  - reflexivity.
  - vm_compute. reflexivity.
  - left. reflexivity.
  - vm_compute. reflexivity.
  - vm_compute. lia.
Defined.

Lemma trainRF_drops_masked_samples_witness :
  trainingTable (fromOk blank (select inputBands labComposite))
                [mkFeature [(5, 5)%Z] [("class_auto", VNum 3)]]
                inputBands "class_auto" = [] /\
  trainRF (engine := lab) labComposite [mkFeature [(5, 5)%Z] [("class_auto", VNum 3)]]
          inputBands "class_auto" =
    (forest <- growForest (Engine := lab) 200 42 [] ;;
     Ok (mkClassifier inputBands forest)).
Proof.
  apply (trainRF_drops_masked_samples (engine := lab) labComposite).
  - vm_compute. reflexivity.
  - intros ft p [<- | []] [<- | []]. exists "B2". split.
    + left. reflexivity.
    + vm_compute. reflexivity.
Defined.

Lemma trainRF_single_class_is_constant_witness :
  decide (fromOk (mkClassifier [] (fun _ => 0))
                 (trainRF (engine := lab) labComposite [treeSample]
                          inputBands "class_auto")) [1200; 3600] = 3.
Proof.
  apply (trainRF_single_class_is_constant (engine := lab) labComposite [treeSample]
           inputBands "class_auto").
  - exact class_auto_fresh.
  - intros ft y [<- | []] H. vm_compute in H. now injection H as <-.
  - vm_compute. reflexivity.
Defined.

Lemma unnamed_feature_stops_the_batch_witness :
  execution (engine := lab) ([cityB] ++ nameless :: [cityA]) [] =
  ([] ++ flat_map (layersOf (engine := lab)) [cityB],
   Some (PropertyNotFound NAME_FIELD)).
Proof.
  apply (unnamed_feature_stops_the_batch (engine := lab) [cityB] [cityA] nameless).
  - constructor; [exists "Beta"; reflexivity | constructor].
  - reflexivity.
Defined.

Lemma classification_defined_where_inputs_are_witness :
  exists g comp,
    run_geom (regionRun (engine := lab) cityB) = Ok g /\
    run_comp (regionRun (engine := lab) cityB) = Ok comp /\
    bandNames labClassification = ["LULC"] /\
    forall p,
      (exists v, valueAt labClassification "LULC" p = Some v) <->
      (contains g p = true /\
       forall b, In b inputBands -> exists x, valueAt comp b p = Some x).
Proof.
  apply (classification_defined_where_inputs_are (engine := lab) cityB).
  vm_compute. reflexivity.
Defined.

Lemma cloudy_samples_leave_nothing_to_train_on_witness :
  (forall ft p, In ft labSamples -> In p (geometry ft) ->
     valueAt (fromOk blank (getComposite (engine := labOvercast) plot)) "B8" p = None) /\
  trainingTable
    (fromOk blank (select inputBands
                     (fromOk blank (getComposite (engine := labOvercast) plot))))
    labSamples inputBands "class_auto" = [] /\
  run_clf (regionRun (engine := labOvercast) cityB) =
    (forest <- growForest (Engine := labOvercast) 200 42 [] ;;
     Ok (mkClassifier inputBands forest)).
Proof.
  apply (cloudy_samples_leave_nothing_to_train_on (engine := labOvercast) cityB plot
           [overcastScene]).
  - reflexivity.
  - reflexivity.
  - vm_compute. reflexivity.
  - vm_compute. reflexivity.
  - vm_compute. reflexivity.
  - intros ft p Hft Hp. vm_compute in Hft.
    destruct Hft as [<- | [<- | []]]; destruct Hp as [<- | []];
      vm_compute; reflexivity.
Defined.
